(** * AdaptiveHeightStrategy: a virtual-scroll strategy for items of varying height

    Shallow embedding of [src/index.ts] (class [AdaptiveHeightStrategy]) and
    the properties of its range computation.

    Conventions of the embedding:
    - a TypeScript [number] holding a pixel quantity or an index is a [Z];
      on such values [Math.ceil] and [Math.floor] are the identity;
    - [unknown[]] is a [list Item] for an arbitrary type [Item]; the item size
      function is a pure function [Item -> Z];
    - the attached [CdkVirtualScrollViewport] is an object of the host: the
      strategy holds a reference to it, the object itself lives in a store
      and records every call it receives;
    - methods are computations in a state-and-exception monad over the store
      and the strategy instance. *)

From Stdlib Require Import ZArith List Bool String Lia.
Import ListNotations.
Open Scope Z_scope.

(** ** The parts of the JavaScript library the class uses *)

Module JS.

Definition Math_max (a b : Z) : Z := Z.max a b.
Definition Math_min (a b : Z) : Z := Z.min a b.
Definition Math_ceil (a : Z) : Z := a.
Definition Math_floor (a : Z) : Z := a.

(** [Array.prototype.slice(0, e)]: a negative [e] counts from the end of
    the array, and the result never extends past the array. *)
Definition slice0 {A : Type} (l : list A) (e : Z) : list A :=
  let len := Z.of_nat (List.length l) in
  let k := if e <? 0 then Z.max (len + e) 0 else Z.min e len in
  firstn (Z.to_nat k) l.

(** [Array.prototype.reduce(f, init)]. *)
Definition reduce {A B : Type} (f : B -> A -> B) (init : B) (l : list A) : B :=
  fold_left f l init.

(** [Array.prototype.forEach(f)] where the callback updates the captured
    variables [S]: every element is visited, in order. *)
Definition forEach {A S : Type} (f : S -> A -> S) (l : list A) (s : S) : S :=
  fold_left f l s.

Inductive Error : Type := Error_ (message : string).

Inductive ScrollBehavior : Type := behavior_auto | behavior_smooth | behavior_instant.

End JS.

(** ** rxjs: [Subject] and [distinctUntilChanged] *)

Module Rx.

(** A [Subject<number>]: [values] are the notifications it has passed on
    to its observers, oldest first. *)
Record Subject : Type := mkSubject {
  isStopped : bool;
  values : list Z
}.

Definition new_Subject : Subject := mkSubject false [].

Definition next (v : Z) (s : Subject) : Subject :=
  if isStopped s then s else mkSubject false (values s ++ [v]).

Definition complete (s : Subject) : Subject :=
  if isStopped s then s else mkSubject true (values s).

(** What an observer of [source.pipe(distinctUntilChanged())] receives when
    the source emits [l]; [prev] is the last value that was let through. *)
Fixpoint distinctUntilChanged_from (prev : option Z) (l : list Z) : list Z :=
  match l with
  | [] => []
  | v :: l' =>
      match prev with
      | Some p =>
          if v =? p then distinctUntilChanged_from prev l'
          else v :: distinctUntilChanged_from (Some v) l'
      | None => v :: distinctUntilChanged_from (Some v) l'
      end
  end.

Definition distinctUntilChanged (l : list Z) : list Z :=
  distinctUntilChanged_from None l.

End Rx.

(** ** The viewport of [@angular/cdk/scrolling], as far as the strategy uses it *)

Module Cdk.

Record ListRange : Type := mkRange { start : Z; end_ : Z }.

Inductive ViewportCall : Type :=
| MeasureScrollOffset
| GetRenderedRange
| GetViewportSize
| GetDataLength
| SetRenderedRange (range : ListRange)
| SetRenderedContentOffset (offset : Z)
| SetTotalContentSize (size : Z)
| ScrollToOffset (offset : Z) (behavior : JS.ScrollBehavior).

(** The state of a viewport the strategy can observe, and the calls the
    viewport has received, oldest first. *)
Record Viewport : Type := mkViewport {
  vp_scrollOffset : Z;
  vp_viewportSize : Z;
  vp_dataLength : Z;
  vp_renderedRange : ListRange;
  vp_renderedContentOffset : Z;
  vp_totalContentSize : Z;
  vp_calls : list ViewportCall
}.

Definition record_call (c : ViewportCall) (v : Viewport) : Viewport :=
  mkViewport (vp_scrollOffset v) (vp_viewportSize v) (vp_dataLength v)
             (vp_renderedRange v) (vp_renderedContentOffset v)
             (vp_totalContentSize v) (vp_calls v ++ [c]).

Definition store_renderedRange (r : ListRange) (v : Viewport) : Viewport :=
  mkViewport (vp_scrollOffset v) (vp_viewportSize v) (vp_dataLength v)
             r (vp_renderedContentOffset v)
             (vp_totalContentSize v) (vp_calls v).

Definition store_renderedContentOffset (o : Z) (v : Viewport) : Viewport :=
  mkViewport (vp_scrollOffset v) (vp_viewportSize v) (vp_dataLength v)
             (vp_renderedRange v) o
             (vp_totalContentSize v) (vp_calls v).

Definition store_totalContentSize (s : Z) (v : Viewport) : Viewport :=
  mkViewport (vp_scrollOffset v) (vp_viewportSize v) (vp_dataLength v)
             (vp_renderedRange v) (vp_renderedContentOffset v)
             s (vp_calls v).

(** References to viewport objects, and the store they point into. *)
Definition ViewportRef : Type := nat.
Definition Store : Type := ViewportRef -> Viewport.

Definition update (h : Store) (r : ViewportRef) (v : Viewport) : Store :=
  fun r' => if Nat.eqb r' r then v else h r'.

End Cdk.

Import JS Rx Cdk.

(** ** The class [AdaptiveHeightStrategy] *)

Module Strategy.

Declare Scope js_scope.
Delimit Scope js_scope with js.

Section WithItem.

Variable Item : Type.

Record AdaptiveHeightStrategy : Type := mkStrategy {
  _scrolledIndexChange : Subject;
  _viewport : option ViewportRef;
  _itemSizeFn : Item -> Z;
  _items : list Item;
  _minBufferPx : Z;
  _maxBufferPx : Z
}.

(** The public [scrolledIndexChange]: the subject piped through
    [distinctUntilChanged()], as seen by an observer subscribed since the
    strategy was constructed. *)
Definition scrolledIndexChange (s : AdaptiveHeightStrategy) : list Z :=
  distinctUntilChanged (values (_scrolledIndexChange s)).

(** The strategy instance together with the store of viewport objects. *)
Record World : Type := mkWorld {
  this : AdaptiveHeightStrategy;
  heap : Store
}.

(** *** State and exceptions *)

Inductive result (A : Type) : Type :=
| Return (a : A)
| Throw (e : Error).

Definition M (A : Type) : Type := World -> result A * World.

Definition ret {A : Type} (a : A) : M A := fun w => (Return A a, w).

Definition throw {A : Type} (e : Error) : M A := fun w => (Throw A e, w).

Definition bind {A B : Type} (c : M A) (k : A -> M B) : M B :=
  fun w =>
    match c w with
    | (Return _ a, w') => k a w'
    | (Throw _ e, w') => (Throw B e, w')
    end.

Definition get_this : M AdaptiveHeightStrategy := fun w => (Return _ (this w), w).

Definition set_this (f : AdaptiveHeightStrategy -> AdaptiveHeightStrategy) : M unit :=
  fun w => (Return _ tt, mkWorld (f (this w)) (heap w)).

(** A method call on the viewport object [r]: the call is recorded, [upd]
    is what the call does to the object, [out] is what it returns. *)
Definition invoke {A : Type} (r : ViewportRef) (c : ViewportCall)
    (upd : Viewport -> Viewport) (out : Viewport -> A) : M A :=
  fun w =>
    let v := heap w r in
    (Return _ (out v), mkWorld (this w) (update (heap w) r (upd (record_call c v)))).


Notation "x <- c ;; k" := (bind c (fun x => k))
  (at level 61, c at next level, right associativity) : js_scope.
Notation "c ;; k" := (bind c (fun _ => k))
  (at level 61, right associativity) : js_scope.

Local Open Scope js_scope.

(** *** The methods of the viewport the strategy calls *)

Definition unchanged (v : Viewport) : Viewport := v.
Definition nothing (v : Viewport) : unit := tt.

Definition measureScrollOffset (r : ViewportRef) : M Z :=
  invoke r MeasureScrollOffset unchanged vp_scrollOffset.

Definition getRenderedRange (r : ViewportRef) : M ListRange :=
  invoke r GetRenderedRange unchanged vp_renderedRange.

Definition getViewportSize (r : ViewportRef) : M Z :=
  invoke r GetViewportSize unchanged vp_viewportSize.

Definition getDataLength (r : ViewportRef) : M Z :=
  invoke r GetDataLength unchanged vp_dataLength.

Definition setRenderedRange (r : ViewportRef) (range : ListRange) : M unit :=
  invoke r (SetRenderedRange range) (store_renderedRange range) nothing.

Definition setRenderedContentOffset (r : ViewportRef) (offset : Z) : M unit :=
  invoke r (SetRenderedContentOffset offset) (store_renderedContentOffset offset) nothing.

Definition setTotalContentSize (r : ViewportRef) (size : Z) : M unit :=
  invoke r (SetTotalContentSize size) (store_totalContentSize size) nothing.

(** The scroll position belongs to the host: the request is recorded, the
    measured offset changes when the host scrolls. *)
Definition scrollToOffset (r : ViewportRef) (offset : Z) (behavior : ScrollBehavior) : M unit :=
  invoke r (ScrollToOffset offset behavior) unchanged nothing.

(** *** Private methods *)

(** [_getItemSize(data)], lines 140-145. *)
Definition _getItemSize (s : AdaptiveHeightStrategy) (data : list Item) : Z :=
  reduce (fun acc curr => _itemSizeFn s curr + acc) 0 data.

(** The callback of [forEach] in [_getFirstVisibleIndex], lines 150-157;
    the captured variables are [(acc, ind)]. *)
Definition _getFirstVisibleIndex_step (s : AdaptiveHeightStrategy) (offset : Z)
    (st : Z * Z) (curr : Item) : Z * Z :=
  let (acc, ind) := st in
  if acc >? offset then (acc, ind)
  else (acc + _itemSizeFn s curr, ind + 1).

(** [_getFirstVisibleIndex(offset)], lines 147-159. *)
Definition _getFirstVisibleIndex (s : AdaptiveHeightStrategy) (offset : Z) : Z :=
  let (acc, ind) := forEach (_getFirstVisibleIndex_step s offset) (_items s) (0, 0) in
  ind.

(** [_updateTotalContentSize()], lines 133-138. *)
Definition _updateTotalContentSize : M unit :=
  s <- get_this ;;
  match _viewport s with
  | None => ret tt
  | Some vp => setTotalContentSize vp (_getItemSize s (_items s))
  end.

(** Lines 171 and 175-208 of [_updateRenderedRange]: the value of [newRange]
    when it is committed. *)
Definition _updateRenderedRange_newRange (s : AdaptiveHeightStrategy)
    (scrollOffset firstVisibleIndex : Z) (renderedRange : ListRange)
    (viewportSize dataLength : Z) : ListRange :=
  let newRange := mkRange (start renderedRange) (end_ renderedRange) in
  let startBuffer :=
    scrollOffset - _getItemSize s (slice0 (_items s) (start newRange)) in
  if (startBuffer <? _minBufferPx s) && negb (start newRange =? 0) then
    let expandStart :=
      Math_ceil (_getFirstVisibleIndex s (_maxBufferPx s - startBuffer)) in
    let newRange :=
      mkRange (Math_max 0 (start newRange - expandStart)) (end_ newRange) in
    let newRange :=
      mkRange (start newRange)
              (Math_min dataLength
                 (Math_ceil (firstVisibleIndex
                             + _getFirstVisibleIndex s (viewportSize + _minBufferPx s)))) in
    newRange
  else
    let endBuffer :=
      _getItemSize s (slice0 (_items s) (end_ newRange))
      - (scrollOffset + viewportSize) in
    if (endBuffer <? _minBufferPx s) && negb (end_ newRange =? dataLength) then
      let expandEnd :=
        Math_ceil (_getFirstVisibleIndex s (_maxBufferPx s - endBuffer)) in
      if expandEnd >? 0 then
        let newRange :=
          mkRange (start newRange) (Math_min dataLength (end_ newRange + expandEnd)) in
        let newRange :=
          mkRange (Math_max 0 (firstVisibleIndex
                               - _getFirstVisibleIndex s (_minBufferPx s)))
                  (end_ newRange) in
        newRange
      else newRange
    else newRange.

Definition Subject_next (v : Z) : M unit :=
  set_this (fun s =>
    mkStrategy (next v (_scrolledIndexChange s)) (_viewport s) (_itemSizeFn s)
               (_items s) (_minBufferPx s) (_maxBufferPx s)).

Definition Subject_complete : M unit :=
  set_this (fun s =>
    mkStrategy (complete (_scrolledIndexChange s)) (_viewport s) (_itemSizeFn s)
               (_items s) (_minBufferPx s) (_maxBufferPx s)).

Definition set_viewport (v : option ViewportRef) : M unit :=
  set_this (fun s =>
    mkStrategy (_scrolledIndexChange s) v (_itemSizeFn s)
               (_items s) (_minBufferPx s) (_maxBufferPx s)).

Definition set_items (items : list Item) : M unit :=
  set_this (fun s =>
    mkStrategy (_scrolledIndexChange s) (_viewport s) (_itemSizeFn s)
               items (_minBufferPx s) (_maxBufferPx s)).

Definition set_itemSizeFn (itemSizeFn : Item -> Z) : M unit :=
  set_this (fun s =>
    mkStrategy (_scrolledIndexChange s) (_viewport s) itemSizeFn
               (_items s) (_minBufferPx s) (_maxBufferPx s)).

Definition set_minBufferPx (minBufferPx : Z) : M unit :=
  set_this (fun s =>
    mkStrategy (_scrolledIndexChange s) (_viewport s) (_itemSizeFn s)
               (_items s) minBufferPx (_maxBufferPx s)).

Definition set_maxBufferPx (maxBufferPx : Z) : M unit :=
  set_this (fun s =>
    mkStrategy (_scrolledIndexChange s) (_viewport s) (_itemSizeFn s)
               (_items s) (_minBufferPx s) maxBufferPx).

(** [_updateRenderedRange()], lines 162-214. *)
Definition _updateRenderedRange : M unit :=
  s <- get_this ;;
  match _viewport s with
  | None => ret tt
  | Some vp =>
      scrollOffset <- measureScrollOffset vp ;;
      let firstVisibleIndex := _getFirstVisibleIndex s scrollOffset in
      renderedRange <- getRenderedRange vp ;;
      viewportSize <- getViewportSize vp ;;
      dataLength <- getDataLength vp ;;
      let newRange :=
        _updateRenderedRange_newRange s scrollOffset firstVisibleIndex
          renderedRange viewportSize dataLength in
      setRenderedRange vp newRange ;;
      setRenderedContentOffset vp
        (_getItemSize s (slice0 (_items s) (start newRange))) ;;
      Subject_next (Math_floor firstVisibleIndex)
  end.

(** *** Public methods *)

(** The constructor, lines 44-54. *)
Definition constructor (itemSizeFn : Item -> Z) (items : list Item)
    (minBufferPx maxBufferPx : Z) : result AdaptiveHeightStrategy :=
  Return _ (mkStrategy new_Subject None itemSizeFn items minBufferPx maxBufferPx).

(** [attach(viewport)], lines 60-64. *)
Definition attach (viewport : ViewportRef) : M unit :=
  set_viewport (Some viewport) ;;
  _updateTotalContentSize ;;
  _updateRenderedRange.

(** [detach()], lines 67-70. *)
Definition detach : M unit :=
  Subject_complete ;;
  set_viewport None.

Definition ConfigError : Error :=
  Error_ "CDK virtual scroll: maxBufferPx must be greater than or equal to minBufferPx".

(** [updateItemAndBufferSize(itemSizeFn, items, minBufferPx, maxBufferPx)],
    lines 78-95. *)
Definition updateItemAndBufferSize (itemSizeFn : Item -> Z) (items : list Item)
    (minBufferPx maxBufferPx : Z) : M unit :=
  if maxBufferPx <? minBufferPx then throw ConfigError
  else
    set_items items ;;
    set_itemSizeFn itemSizeFn ;;
    set_minBufferPx minBufferPx ;;
    set_maxBufferPx maxBufferPx ;;
    _updateTotalContentSize ;;
    _updateRenderedRange.

(** [onContentScrolled()], lines 98-100. *)
Definition onContentScrolled : M unit := _updateRenderedRange.

(** [onDataLengthChanged()], lines 103-106. *)
Definition onDataLengthChanged : M unit :=
  _updateTotalContentSize ;;
  _updateRenderedRange.

(** [onContentRendered()] and [onRenderedOffsetChanged()], lines 109-116. *)
Definition onContentRendered : M unit := ret tt.
Definition onRenderedOffsetChanged : M unit := ret tt.

(** [scrollToIndex(index, behavior)], lines 123-130. *)
Definition scrollToIndex (index : Z) (behavior : ScrollBehavior) : M unit :=
  s <- get_this ;;
  match _viewport s with
  | Some vp => scrollToOffset vp (_getItemSize s (slice0 (_items s) index)) behavior
  | None => ret tt
  end.

(** *** The host calling the strategy *)

Inductive Call : Type :=
| Attach (viewport : ViewportRef)
| Detach
| UpdateItemAndBufferSize (itemSizeFn : Item -> Z) (items : list Item)
    (minBufferPx maxBufferPx : Z)
| OnContentScrolled
| OnDataLengthChanged
| OnContentRendered
| OnRenderedOffsetChanged
| ScrollToIndex (index : Z) (behavior : ScrollBehavior).

Definition perform (c : Call) : M unit :=
  match c with
  | Attach viewport => attach viewport
  | Detach => detach
  | UpdateItemAndBufferSize itemSizeFn items minBufferPx maxBufferPx =>
      updateItemAndBufferSize itemSizeFn items minBufferPx maxBufferPx
  | OnContentScrolled => onContentScrolled
  | OnDataLengthChanged => onDataLengthChanged
  | OnContentRendered => onContentRendered
  | OnRenderedOffsetChanged => onRenderedOffsetChanged
  | ScrollToIndex index behavior => scrollToIndex index behavior
  end.

Definition is_attach (c : Call) : bool :=
  match c with
  | Attach _ => true
  | _ => false
  end.

(** A sequence of calls made by the host, one after the other; an exception
    of one call goes to the host and does not prevent the later calls. The
    outcome of every call is collected. *)
Fixpoint perform_all (cs : list Call) (w : World) : list (result unit) * World :=
  match cs with
  | [] => ([], w)
  | c :: cs' =>
      let (r, w') := perform c w in
      let (rs, w'') := perform_all cs' w' in
      (r :: rs, w'')
  end.

End WithItem.

End Strategy.

Import Strategy.

Arguments mkStrategy {Item}.
Arguments _scrolledIndexChange {Item}.
Arguments _viewport {Item}.
Arguments _itemSizeFn {Item}.
Arguments _items {Item}.
Arguments _minBufferPx {Item}.
Arguments _maxBufferPx {Item}.
Arguments scrolledIndexChange {Item}.
Arguments mkWorld {Item}.
Arguments this {Item}.
Arguments heap {Item}.
Arguments bind {Item A B}.
Arguments ret {Item A}.
Arguments throw {Item A}.
Arguments get_this {Item}.
Arguments set_this {Item}.
Arguments Return {A}.
Arguments Throw {A}.
Arguments _getItemSize {Item}.
Arguments _getFirstVisibleIndex_step {Item}.
Arguments _getFirstVisibleIndex {Item}.
Arguments _updateTotalContentSize {Item}.
Arguments _updateRenderedRange_newRange {Item}.
Arguments _updateRenderedRange {Item}.
Arguments constructor {Item}.
Arguments attach {Item}.
Arguments detach {Item}.
Arguments updateItemAndBufferSize {Item}.
Arguments onContentScrolled {Item}.
Arguments onDataLengthChanged {Item}.
Arguments onContentRendered {Item}.
Arguments onRenderedOffsetChanged {Item}.
Arguments scrollToIndex {Item}.
Arguments Attach {Item}.
Arguments Detach {Item}.
Arguments UpdateItemAndBufferSize {Item}.
Arguments OnContentScrolled {Item}.
Arguments OnDataLengthChanged {Item}.
Arguments OnContentRendered {Item}.
Arguments OnRenderedOffsetChanged {Item}.
Arguments ScrollToIndex {Item}.
Arguments perform {Item}.
Arguments is_attach {Item}.
Arguments perform_all {Item}.

(** ** One recomputation pass, as a function of what it reads *)

Section Pass.

Context {Item : Type}.

(** The range a pass commits when the strategy is [s] and the viewport it
    reads is [v]. *)
Definition pass_newRange (s : AdaptiveHeightStrategy Item) (v : Viewport) : ListRange :=
  _updateRenderedRange_newRange s (vp_scrollOffset v)
    (_getFirstVisibleIndex s (vp_scrollOffset v))
    (vp_renderedRange v) (vp_viewportSize v) (vp_dataLength v).

(** The content offset it commits. *)
Definition pass_contentOffset (s : AdaptiveHeightStrategy Item) (v : Viewport) : Z :=
  _getItemSize s (slice0 (_items s) (start (pass_newRange s v))).

(** The calls the viewport receives during the pass. *)
Definition pass_calls (s : AdaptiveHeightStrategy Item) (v : Viewport) : list ViewportCall :=
  [MeasureScrollOffset; GetRenderedRange; GetViewportSize; GetDataLength;
   SetRenderedRange (pass_newRange s v);
   SetRenderedContentOffset (pass_contentOffset s v)].

(** The strategy after it has passed [v] to its subject. *)
Definition published (v : Z) (s : AdaptiveHeightStrategy Item) : AdaptiveHeightStrategy Item :=
  mkStrategy (next v (_scrolledIndexChange s)) (_viewport s) (_itemSizeFn s)
             (_items s) (_minBufferPx s) (_maxBufferPx s).

(** The strategy of [w] with the four configuration fields replaced. *)
Definition configured (w : World Item) (itemSizeFn : Item -> Z) (items : list Item)
    (minBufferPx maxBufferPx : Z) : World Item :=
  mkWorld
    (mkStrategy (_scrolledIndexChange (this w)) (_viewport (this w))
                itemSizeFn items minBufferPx maxBufferPx)
    (heap w).

(** The calls of the host that run a recomputation of the rendered range. *)
Definition recomputes (c : Call Item) : bool :=
  match c with
  | Attach _ | OnContentScrolled | OnDataLengthChanged
  | UpdateItemAndBufferSize _ _ _ _ => true
  | _ => false
  end.

(** The invariant of a rendered range over [dataLength] items. *)
Definition well_formed (dataLength : Z) (r : ListRange) : Prop :=
  0 <= start r /\ start r <= end_ r /\ end_ r <= dataLength.

(** Both indices of the range are indices into [dataLength] items. *)
Definition within (dataLength : Z) (r : ListRange) : Prop :=
  (0 <= start r <= dataLength) /\ (0 <= end_ r <= dataLength).

(** The slack, in pixels, rendered before and after the visible area when
    the viewport [v] renders the range [r] (lines 175-176 and 191-193). *)
Definition startBuffer (s : AdaptiveHeightStrategy Item) (v : Viewport) (r : ListRange) : Z :=
  vp_scrollOffset v - _getItemSize s (slice0 (_items s) (start r)).

Definition endBuffer (s : AdaptiveHeightStrategy Item) (v : Viewport) (r : ListRange) : Z :=
  _getItemSize s (slice0 (_items s) (end_ r))
  - (vp_scrollOffset v + vp_viewportSize v).

(** A strategy that has been detached: no viewport, and a subject that has
    completed. *)
Definition inert (w : World Item) : Prop :=
  _viewport (this w) = None /\ isStopped (_scrolledIndexChange (this w)) = true.

Definition is_setTotalContentSize (c : ViewportCall) : bool :=
  match c with
  | SetTotalContentSize _ => true
  | _ => false
  end.

End Pass.

(** ** The behaviour the specification describes *)

Module Spec.

Section WithItem.

Variable Item : Type.
Variable sizeFn : Item -> Z.

(** [totalSize(items)]: the sum of [sizeFn(item)] over the whole sequence. *)
Fixpoint totalSize (items : list Item) : Z :=
  match items with
  | [] => 0
  | item :: rest => sizeFn item + totalSize rest
  end.

(** [cumulativeSize(items[0..k))]: the sum of the sizes of the first [k]
    items. *)
Definition cumulativeSize (items : list Item) (k : Z) : Z :=
  totalSize (firstn (Z.to_nat k) items).

(** The reference walk of [firstIndexAtOrBeyond]: sizes are accumulated
    while [acc <= offset], the walk stops once [acc > offset], and the
    result is the count of items consumed. *)
Fixpoint walk (acc offset : Z) (items : list Item) : Z :=
  match items with
  | [] => 0
  | item :: rest =>
      if acc <=? offset then 1 + walk (acc + sizeFn item) offset rest
      else 0
  end.

Definition firstIndexAtOrBeyond (items : list Item) (offsetPx : Z) : Z :=
  walk 0 offsetPx items.

(** The two-branch update of the rendered range, steps 3 to 5 of the range
    recomputation algorithm. *)
Definition twoBranch (items : list Item) (minBufferPx maxBufferPx : Z)
    (scrollOffset viewportSize dataLength : Z) (range : ListRange) : ListRange :=
  let firstVisibleIndex := firstIndexAtOrBeyond items scrollOffset in
  let startBuffer := scrollOffset - cumulativeSize items (start range) in
  let endBuffer :=
    cumulativeSize items (end_ range) - (scrollOffset + viewportSize) in
  let expandEnd := firstIndexAtOrBeyond items (maxBufferPx - endBuffer) in
  if (startBuffer <? minBufferPx) && negb (start range =? 0) then
    mkRange
      (Z.max 0 (start range - firstIndexAtOrBeyond items (maxBufferPx - startBuffer)))
      (Z.min dataLength
         (firstVisibleIndex + firstIndexAtOrBeyond items (viewportSize + minBufferPx)))
  else if (endBuffer <? minBufferPx) && negb (end_ range =? dataLength)
          && (0 <? expandEnd) then
    mkRange
      (Z.max 0 (firstVisibleIndex - firstIndexAtOrBeyond items minBufferPx))
      (Z.min dataLength (end_ range + expandEnd))
  else range.

End WithItem.

End Spec.

Arguments Spec.totalSize {Item}.
Arguments Spec.cumulativeSize {Item}.
Arguments Spec.walk {Item}.
Arguments Spec.firstIndexAtOrBeyond {Item}.
Arguments Spec.twoBranch {Item}.

(** ** Concrete lists and viewports *)

Module Scenario.

(** An item is described by its height in pixels. *)
Definition height (item : Z) : Z := item.

(** A viewport that has not rendered anything yet. *)
Definition fresh_viewport (scrollOffset viewportSize dataLength : Z) : Viewport :=
  mkViewport scrollOffset viewportSize dataLength (mkRange 0 0) 0 0 [].

(** 50 items of 20px each. *)
Definition fifty : list Z := repeat 20 50.

(** One header of 2000px followed by 100 rows of 20px. *)
Definition header_and_rows : list Z := 2000 :: repeat 20 100.

(** A strategy as the constructor leaves it, next to the viewport object [v]
    at every address of the store. *)
Definition constructed (items : list Z) (minBufferPx maxBufferPx : Z)
    (v : Viewport) : World Z :=
  mkWorld (mkStrategy new_Subject None height items minBufferPx maxBufferPx)
          (fun _ => v).

(** The host scrolls the viewport object [r] to [scrollOffset]. *)
Definition host_scrolls (r : ViewportRef) (scrollOffset : Z) (w : World Z) : World Z :=
  let v := heap w r in
  mkWorld (this w)
          (update (heap w) r
             (mkViewport scrollOffset (vp_viewportSize v) (vp_dataLength v)
                (vp_renderedRange v) (vp_renderedContentOffset v)
                (vp_totalContentSize v) (vp_calls v))).

Definition committed (w : World Z) : ListRange := vp_renderedRange (heap w 0%nat).

Definition after (c : M Z unit) (w : World Z) : World Z := snd (c w).

(** The list of 50 items attached at the top of a viewport of 500px, with
    the buffers of the directive (100px and 200px). *)
Definition fifty_attached : World Z :=
  after (attach 0%nat) (constructed fifty 100 200 (fresh_viewport 0 500 50)).

(** The list with the header, attached at the top, and then scrolled by the
    host to 3000px, that is, to row 50. *)
Definition header_attached : World Z :=
  after (attach 0%nat) (constructed header_and_rows 100 200 (fresh_viewport 0 500 101)).

Definition header_scrolled : World Z :=
  after onContentScrolled (host_scrolls 0%nat 3000 header_attached).

(** The list of 50 items with [minBufferPx] 90, attached at the top, then
    scrolled by the host to 400px and notified once. *)
Definition fifty_tight_scrolled : World Z :=
  after onContentScrolled
    (host_scrolls 0%nat 400
       (after (attach 0%nat) (constructed fifty 90 200 (fresh_viewport 0 500 50)))).

End Scenario.

Import Scenario.

(** ** Vocabulary for the calls and the values that are observed *)

Definition is_scrollToOffset (c : ViewportCall) : bool :=
  match c with
  | ScrollToOffset _ _ => true
  | _ => false
  end.

Definition is_scrollToIndex {Item : Type} (c : Call Item) : bool :=
  match c with
  | ScrollToIndex _ _ => true
  | _ => false
  end.

(** The call attaches the strategy to the viewport object [r]. *)
Definition attaches_to {Item : Type} (r : ViewportRef) (c : Call Item) : bool :=
  match c with
  | Attach vp => Nat.eqb vp r
  | _ => false
  end.

(** The calls that recompute the total content size before the range. *)
Definition recomputes_total_size {Item : Type} (c : Call Item) : bool :=
  match c with
  | Attach _ | OnDataLengthChanged | UpdateItemAndBufferSize _ _ _ _ => true
  | _ => false
  end.

(** No run of consecutive items is smaller than the run of as many items at
    the head of the list; so it is in a list of items of equal size. *)
Definition head_lightest {Item : Type} (size : Item -> Z) (items : list Item) : Prop :=
  forall j k : nat,
    (j + k <= List.length items)%nat ->
    Spec.totalSize size (firstn k items)
    <= Spec.totalSize size (firstn (j + k) items) - Spec.totalSize size (firstn j items).

(** No value is followed by an equal value. *)
Fixpoint no_repetition (l : list Z) : Prop :=
  match l with
  | [] => True
  | x :: l' =>
      match l' with
      | [] => True
      | y :: _ => x <> y /\ no_repetition l'
      end
  end.

(** [sub] is [l] with some of its elements left out. *)
Inductive subsequence : list Z -> list Z -> Prop :=
| subsequence_nil : subsequence [] []
| subsequence_keep (x : Z) (sub l : list Z) :
    subsequence sub l -> subsequence (x :: sub) (x :: l)
| subsequence_skip (x : Z) (sub l : list Z) :
    subsequence sub l -> subsequence sub (x :: l).

(** How a world [w'] can differ from an earlier world [w] of the same
    strategy: every viewport has received further calls, among them
    [scrollToOffset] only if [scrolls] allows it; the subject has passed on
    further values, none of them negative and none at all if it had
    completed; and a completed subject stays completed. *)
Definition grows_from {Item : Type} (scrolls : bool) (w w' : World Item) : Prop :=
  (forall r, exists calls,
      vp_calls (heap w' r) = vp_calls (heap w r) ++ calls
      /\ forallb (fun c => scrolls || negb (is_scrollToOffset c)) calls = true)
  /\ (exists vs,
        values (_scrolledIndexChange (this w'))
        = values (_scrolledIndexChange (this w)) ++ vs
        /\ Forall (fun v => 0 <= v) vs
        /\ (isStopped (_scrolledIndexChange (this w)) = true -> vs = []))
  /\ (isStopped (_scrolledIndexChange (this w)) = true ->
      isStopped (_scrolledIndexChange (this w')) = true).

(** ** The directive [CdkReactiveSizeVirtualScroll] *)

Module Directive.

Section WithItem.

Variable Item : Type.

(** The fields of the directive, lines 241-273. The strategy it creates
    (line 277) is the instance of the world [strategy_world], which is also
    what the viewport calls; [detectChanges] counts the calls of
    [cdr.detectChanges()]. *)
Record CdkReactiveSizeVirtualScroll : Type := mkDirective {
  itemSizeFn : Item -> Z;
  items : list Item;
  _minBufferPx : Z;
  _maxBufferPx : Z;
  strategy_world : World Item;
  detectChanges : nat
}.

(** The getters [minBufferPx] and [maxBufferPx], lines 253-255 and 267-269. *)
Definition minBufferPx (d : CdkReactiveSizeVirtualScroll) : Z := _minBufferPx d.
Definition maxBufferPx (d : CdkReactiveSizeVirtualScroll) : Z := _maxBufferPx d.

(** The field initialisers in the order of their declaration (lines 243,
    246, 259, 273, 277): the strategy is constructed from the values the
    fields have at that moment. *)
Definition new_CdkReactiveSizeVirtualScroll (h : Store) : result CdkReactiveSizeVirtualScroll :=
  let itemSizeFn0 := fun _ : Item => 20 in
  let items0 := @nil Item in
  let minBufferPx0 := 100 in
  let maxBufferPx0 := 200 in
  match constructor itemSizeFn0 items0 minBufferPx0 maxBufferPx0 with
  | Return s =>
      Return (mkDirective itemSizeFn0 items0 minBufferPx0 maxBufferPx0 (mkWorld s h) 0%nat)
  | Throw e => Throw e
  end.

(** [_fixedSizeVirtualScrollStrategyFactory(fixedSizeDir)], lines 223-227. *)
Definition _fixedSizeVirtualScrollStrategyFactory (fixedSizeDir : CdkReactiveSizeVirtualScroll)
    : AdaptiveHeightStrategy Item :=
  this (strategy_world fixedSizeDir).

(** Assignments to the inputs: the two plain fields and the two setters,
    lines 256-258 and 270-272. *)
Definition set_itemSizeFn (f : Item -> Z) (d : CdkReactiveSizeVirtualScroll) :=
  mkDirective f (items d) (_minBufferPx d) (_maxBufferPx d) (strategy_world d) (detectChanges d).

Definition set_items (xs : list Item) (d : CdkReactiveSizeVirtualScroll) :=
  mkDirective (itemSizeFn d) xs (_minBufferPx d) (_maxBufferPx d) (strategy_world d) (detectChanges d).

Definition set_minBufferPx (value : Z) (d : CdkReactiveSizeVirtualScroll) :=
  mkDirective (itemSizeFn d) (items d) value (_maxBufferPx d) (strategy_world d) (detectChanges d).

Definition set_maxBufferPx (value : Z) (d : CdkReactiveSizeVirtualScroll) :=
  mkDirective (itemSizeFn d) (items d) (_minBufferPx d) value (strategy_world d) (detectChanges d).

(** [ngOnChanges()], lines 284-292: an exception of the strategy leaves the
    method before [detectChanges] is called. *)
Definition ngOnChanges (d : CdkReactiveSizeVirtualScroll)
    : result unit * CdkReactiveSizeVirtualScroll :=
  match updateItemAndBufferSize (itemSizeFn d) (items d) (minBufferPx d) (maxBufferPx d)
          (strategy_world d) with
  | (Return _, w') =>
      (Return tt,
       mkDirective (itemSizeFn d) (items d) (_minBufferPx d) (_maxBufferPx d)
                   w' (S (detectChanges d)))
  | (Throw e, w') =>
      (Throw e,
       mkDirective (itemSizeFn d) (items d) (_minBufferPx d) (_maxBufferPx d)
                   w' (detectChanges d))
  end.

(** What happens to a directive: the framework assigns inputs and calls
    [ngOnChanges]; the viewport, which received the strategy from the
    factory, calls the methods of the strategy. *)
Inductive Event : Type :=
| AssignItemSizeFn (f : Item -> Z)
| AssignItems (xs : list Item)
| AssignMinBufferPx (value : Z)
| AssignMaxBufferPx (value : Z)
| NgOnChanges
| OnStrategy (c : Call Item).

Definition handle (e : Event) (d : CdkReactiveSizeVirtualScroll)
    : result unit * CdkReactiveSizeVirtualScroll :=
  match e with
  | AssignItemSizeFn f => (Return tt, set_itemSizeFn f d)
  | AssignItems xs => (Return tt, set_items xs d)
  | AssignMinBufferPx value => (Return tt, set_minBufferPx value d)
  | AssignMaxBufferPx value => (Return tt, set_maxBufferPx value d)
  | NgOnChanges => ngOnChanges d
  | OnStrategy c =>
      let (r, w') := perform c (strategy_world d) in
      (r, mkDirective (itemSizeFn d) (items d) (_minBufferPx d) (_maxBufferPx d)
                      w' (detectChanges d))
  end.

(** The events one after the other; an exception goes to the caller and the
    later events still happen. *)
Fixpoint handle_all (es : list Event) (d : CdkReactiveSizeVirtualScroll)
    : CdkReactiveSizeVirtualScroll :=
  match es with
  | [] => d
  | e :: es' => handle_all es' (snd (handle e d))
  end.

End WithItem.

End Directive.

Arguments Directive.mkDirective {Item}.
Arguments Directive.itemSizeFn {Item}.
Arguments Directive.items {Item}.
Arguments Directive._minBufferPx {Item}.
Arguments Directive._maxBufferPx {Item}.
Arguments Directive.strategy_world {Item}.
Arguments Directive.detectChanges {Item}.
Arguments Directive.minBufferPx {Item}.
Arguments Directive.maxBufferPx {Item}.
Arguments Directive._fixedSizeVirtualScrollStrategyFactory {Item}.
Arguments Directive.set_itemSizeFn {Item}.
Arguments Directive.set_items {Item}.
Arguments Directive.set_minBufferPx {Item}.
Arguments Directive.set_maxBufferPx {Item}.
Arguments Directive.ngOnChanges {Item}.
Arguments Directive.AssignItemSizeFn {Item}.
Arguments Directive.AssignItems {Item}.
Arguments Directive.AssignMinBufferPx {Item}.
Arguments Directive.AssignMaxBufferPx {Item}.
Arguments Directive.NgOnChanges {Item}.
Arguments Directive.OnStrategy {Item}.
Arguments Directive.handle {Item}.
Arguments Directive.handle_all {Item}.

(** ** More concrete lists and worlds *)

Module Scenario2.

(** Items of 10px and 50px in turn. *)
Definition alternating : list Z := [10; 50; 10; 50; 10; 50].

(** A strategy over [alternating], attached to the viewport at address 0; the
    viewport at address 1 is another object of the host. *)
Definition alternating_attached : World Z :=
  after (attach 0%nat) (constructed alternating 100 200 (fresh_viewport 0 500 6)).

(** The directive as it is created, next to a fresh viewport. *)
Definition fresh_store : Store := fun _ => fresh_viewport 0 500 0.

End Scenario2.

Import Scenario2.

(** * Properties *)

(** ** Sums and the index walk *)

Section Walk.

Context {Item : Type}.
Variable s : AdaptiveHeightStrategy Item.

Local Abbreviation size := (_itemSizeFn s).

Lemma reduce_totalSize (data : list Item) (init : Z) :
  reduce (fun acc curr => _itemSizeFn s curr + acc) init data
  = init + Spec.totalSize size data.
Proof.
  unfold reduce. revert init.
  induction data as [|x data IH]; intro init; simpl.
  - lia.
  - rewrite IH. lia.
Qed.

Lemma _getItemSize_totalSize (data : list Item) :
  _getItemSize s data = Spec.totalSize size data.
Proof. unfold _getItemSize. now rewrite reduce_totalSize. Qed.

(** Once the accumulator is beyond the offset the callback changes nothing,
    for all the items that remain. *)
Lemma forEach_past (offset acc ind : Z) (items : list Item) :
  acc > offset ->
  forEach (_getFirstVisibleIndex_step s offset) items (acc, ind) = (acc, ind).
Proof.
  intro H. unfold forEach.
  induction items as [|x items IH]; simpl; [reflexivity|].
  destruct (acc >? offset) eqn:E; [exact IH|].
  rewrite Z.gtb_ltb in E. apply Z.ltb_ge in E. lia.
Qed.

Lemma forEach_walk (offset acc ind : Z) (items : list Item) :
  snd (forEach (_getFirstVisibleIndex_step s offset) items (acc, ind))
  = ind + Spec.walk size acc offset items.
Proof.
  revert acc ind.
  induction items as [|x items IH]; intros acc ind.
  - simpl. lia.
  - change (forEach (_getFirstVisibleIndex_step s offset) (x :: items) (acc, ind))
      with (forEach (_getFirstVisibleIndex_step s offset) items
              (_getFirstVisibleIndex_step s offset (acc, ind) x)).
    cbn [Spec.walk _getFirstVisibleIndex_step].
    destruct (acc >? offset) eqn:E.
    + rewrite Z.gtb_ltb in E. apply Z.ltb_lt in E.
      rewrite forEach_past by lia.
      assert ((acc <=? offset) = false) as -> by (apply Z.leb_gt; lia).
      simpl. lia.
    + assert ((acc <=? offset) = true) as ->.
      { apply Z.leb_le. rewrite Z.gtb_ltb in E. apply Z.ltb_ge in E. exact E. }
      rewrite IH. lia.
Qed.

Lemma _getFirstVisibleIndex_walk (offset : Z) :
  _getFirstVisibleIndex s offset = Spec.firstIndexAtOrBeyond size (_items s) offset.
Proof.
  unfold _getFirstVisibleIndex, Spec.firstIndexAtOrBeyond.
  pose proof (forEach_walk offset 0 0 (_items s)) as H.
  destruct (forEach _ _ _) as [acc ind]. simpl in H. lia.
Qed.

End Walk.

Section WalkFacts.

Context {Item : Type}.
Variable size : Item -> Z.

Lemma walk_bounds (items : list Item) (acc offset : Z) :
  0 <= Spec.walk size acc offset items <= Z.of_nat (List.length items).
Proof.
  revert acc. induction items as [|x items IH]; intro acc; cbn [Spec.walk].
  - simpl. lia.
  - destruct (acc <=? offset).
    + specialize (IH (acc + size x)). simpl List.length. lia.
    + simpl List.length. lia.
Qed.

Lemma walk_past (items : list Item) (acc offset : Z) :
  offset < acc -> Spec.walk size acc offset items = 0.
Proof.
  intro H. destruct items as [|x items]; simpl; [reflexivity|].
  destruct (acc <=? offset) eqn:E; [|reflexivity].
  apply Z.leb_le in E. lia.
Qed.

Lemma totalSize_nonneg (items : list Item) :
  Forall (fun x => 0 <= size x) items -> 0 <= Spec.totalSize size items.
Proof.
  induction 1 as [|x items Hx _ IH]; simpl; lia.
Qed.

Lemma totalSize_firstn_le (items : list Item) (k : nat) :
  Forall (fun x => 0 <= size x) items ->
  0 <= Spec.totalSize size (firstn k items) <= Spec.totalSize size items.
Proof.
  intro H. revert k.
  induction H as [|x items Hx _ IH]; intro k.
  - rewrite firstn_nil. simpl. lia.
  - destruct k as [|k]; simpl.
    + pose proof (IH 0%nat). simpl in *. lia.
    + specialize (IH k). lia.
Qed.

(** With non-negative sizes, an offset that the whole list does not exceed
    lets the walk consume every item. *)
Lemma walk_all (items : list Item) (acc offset : Z) :
  Forall (fun x => 0 <= size x) items ->
  acc + Spec.totalSize size items <= offset ->
  Spec.walk size acc offset items = Z.of_nat (List.length items).
Proof.
  intro H. revert acc.
  induction H as [|x items Hx Hall IH]; intros acc Hle; cbn [Spec.walk].
  - reflexivity.
  - simpl in Hle. pose proof (totalSize_nonneg items Hall).
    assert ((acc <=? offset) = true) as -> by (apply Z.leb_le; lia).
    rewrite IH by lia. simpl List.length. lia.
Qed.

(** The walk stops at or before any prefix whose size exceeds the offset. *)
Lemma walk_le_prefix (items : list Item) (acc offset : Z) (k : nat) :
  offset < acc + Spec.totalSize size (firstn k items) ->
  Spec.walk size acc offset items <= Z.of_nat k.
Proof.
  revert acc k. induction items as [|x items IH]; intros acc k H; cbn [Spec.walk].
  - lia.
  - destruct (acc <=? offset) eqn:E; [|lia].
    apply Z.leb_le in E.
    destruct k as [|k]; simpl in H; [lia|].
    specialize (IH (acc + size x) k). lia.
Qed.

(** With non-negative sizes, the walk goes past any prefix that the offset
    has reached, as long as an item remains. *)
Lemma walk_gt_prefix (items : list Item) (acc offset : Z) (k : nat) :
  Forall (fun x => 0 <= size x) items ->
  acc + Spec.totalSize size (firstn k items) <= offset ->
  (k < List.length items)%nat ->
  Z.of_nat k + 1 <= Spec.walk size acc offset items.
Proof.
  intro H. revert acc k.
  induction H as [|x items Hx Hall IH]; intros acc k Hle Hk; simpl in Hk; [lia|].
  cbn [Spec.walk].
  pose proof (totalSize_firstn_le (x :: items) k (Forall_cons (P := fun y => 0 <= size y) x Hx Hall)) as Hp.
  assert ((acc <=? offset) = true) as -> by (apply Z.leb_le; lia).
  destruct k as [|k].
  - pose proof (walk_bounds items (acc + size x) offset). lia.
  - simpl in Hle. specialize (IH (acc + size x) k). lia.
Qed.

(** A larger offset lets the walk go at least as far. *)
Lemma walk_monotone (items : list Item) (acc offset offset' : Z) :
  offset <= offset' ->
  Spec.walk size acc offset items <= Spec.walk size acc offset' items.
Proof.
  intro H. revert acc. induction items as [|x items IH]; intro acc; cbn [Spec.walk].
  - lia.
  - destruct (acc <=? offset) eqn:E.
    + apply Z.leb_le in E.
      assert ((acc <=? offset') = true) as -> by (apply Z.leb_le; lia).
      specialize (IH (acc + size x)). lia.
    + destruct (acc <=? offset'); [|lia].
      pose proof (walk_bounds items (acc + size x) offset'). lia.
Qed.

Lemma walk_consumed (items : list Item) (acc offset : Z) (k : nat) :
  Z.of_nat k < Spec.walk size acc offset items ->
  acc + Spec.totalSize size (firstn k items) <= offset.
Proof.
  revert acc k. induction items as [|x items IH]; intros acc k H; cbn [Spec.walk] in H.
  - lia.
  - destruct (acc <=? offset) eqn:E; [|lia].
    apply Z.leb_le in E. destruct k as [|k]; cbn [firstn Spec.totalSize]; [lia|].
    specialize (IH (acc + size x) k). lia.
Qed.

Lemma walk_stops (items : list Item) (acc offset : Z) :
  Spec.walk size acc offset items = Z.of_nat (List.length items)
  \/ offset < acc + Spec.totalSize size
                     (firstn (Z.to_nat (Spec.walk size acc offset items)) items).
Proof.
  revert acc. induction items as [|x items IH]; intro acc; cbn [Spec.walk].
  - left. reflexivity.
  - destruct (acc <=? offset) eqn:E.
    + pose proof (walk_bounds items (acc + size x) offset) as B.
      replace (Z.to_nat (1 + Spec.walk size (acc + size x) offset items))
        with (S (Z.to_nat (Spec.walk size (acc + size x) offset items))) by lia.
      destruct (IH (acc + size x)) as [H|H].
      * left. cbn [List.length]. lia.
      * right. cbn [firstn Spec.totalSize]. lia.
    + right. apply Z.leb_gt in E. cbn. lia.
Qed.

Lemma totalSize_firstn_monotone (items : list Item) (a b : nat) :
  Forall (fun x => 0 <= size x) items ->
  (a <= b)%nat ->
  Spec.totalSize size (firstn a items) <= Spec.totalSize size (firstn b items).
Proof.
  intro H. revert a b. induction H as [|x items Hx Hall IH]; intros a b Hab.
  - rewrite !firstn_nil. lia.
  - destruct a as [|a].
    + pose proof (totalSize_firstn_le (x :: items) b
                    (Forall_cons (P := fun y => 0 <= size y) x Hx Hall)).
      cbn [firstn Spec.totalSize]. lia.
    + destruct b as [|b]; [lia|]. cbn [firstn Spec.totalSize].
      specialize (IH a b). lia.
Qed.

End WalkFacts.

(** ** What the private methods do to the store and to the strategy *)

Section Effects.

Context {Item : Type}.

Implicit Types (w : World Item) (vp r : ViewportRef).

Lemma update_same (h : Store) r (v : Viewport) : update h r v r = v.
Proof. unfold update. now rewrite Nat.eqb_refl. Qed.

Lemma update_other (h : Store) r r' (v : Viewport) : r' <> r -> update h r v r' = h r'.
Proof. intro H. unfold update. apply Nat.eqb_neq in H. now rewrite H. Qed.

Lemma _updateRenderedRange_detached w :
  _viewport (this w) = None -> _updateRenderedRange w = (Return tt, w).
Proof.
  intro H. unfold _updateRenderedRange, bind, get_this. now rewrite H.
Qed.

Lemma _updateTotalContentSize_detached w :
  _viewport (this w) = None -> _updateTotalContentSize w = (Return tt, w).
Proof.
  intro H. unfold _updateTotalContentSize, bind, get_this. now rewrite H.
Qed.

Lemma _updateTotalContentSize_attached w vp :
  _viewport (this w) = Some vp ->
  let v := heap w vp in
  let w' := snd (_updateTotalContentSize w) in
  fst (_updateTotalContentSize w) = Return tt
  /\ this w' = this w
  /\ heap w' vp
     = mkViewport (vp_scrollOffset v) (vp_viewportSize v) (vp_dataLength v)
         (vp_renderedRange v) (vp_renderedContentOffset v)
         (_getItemSize (this w) (_items (this w)))
         (vp_calls v ++ [SetTotalContentSize (_getItemSize (this w) (_items (this w)))])
  /\ (forall r, r <> vp -> heap w' r = heap w r).
Proof.
  intro H. unfold _updateTotalContentSize, bind, get_this. rewrite H.
  cbn. repeat split.
  - now rewrite update_same.
  - intros r Hr. now rewrite update_other.
Qed.

Lemma _updateRenderedRange_attached w vp :
  _viewport (this w) = Some vp ->
  let v := heap w vp in
  let w' := snd (_updateRenderedRange w) in
  fst (_updateRenderedRange w) = Return tt
  /\ this w' = published (Math_floor (_getFirstVisibleIndex (this w) (vp_scrollOffset v))) (this w)
  /\ heap w' vp
     = mkViewport (vp_scrollOffset v) (vp_viewportSize v) (vp_dataLength v)
         (pass_newRange (this w) v) (pass_contentOffset (this w) v)
         (vp_totalContentSize v) (vp_calls v ++ pass_calls (this w) v)
  /\ (forall r, r <> vp -> heap w' r = heap w r).
Proof.
  intro H. unfold _updateRenderedRange, bind, get_this. rewrite H.
  cbn. repeat rewrite update_same. cbn. repeat split.
  - unfold pass_calls, pass_contentOffset, pass_newRange.
    unfold store_renderedContentOffset, store_renderedRange, record_call, unchanged.
    cbn. repeat rewrite <- app_assoc. reflexivity.
  - intros r Hr. now repeat rewrite update_other.
Qed.

End Effects.

Lemma forallb_nonneg {Item : Type} (size : Item -> Z) (items : list Item) :
  forallb (fun x => 0 <=? size x) items = true ->
  Forall (fun x => 0 <= size x) items.
Proof.
  intro H. apply Forall_forall. intros x Hx.
  rewrite forallb_forall in H. apply Z.leb_le. now apply H.
Qed.

(** ** The index walk: [_getFirstVisibleIndex] *)

(** C10: for every item collection and every offset, negative ones and
    those at or beyond the total size included, [_getFirstVisibleIndex]
    returns an integer between 0 and the length of the collection. *)
Theorem getFirstVisibleIndex_within_bounds {Item : Type}
    (s : AdaptiveHeightStrategy Item) (offset : Z) :
  0 <= _getFirstVisibleIndex s offset <= Z.of_nat (List.length (_items s)).
Proof.
  rewrite _getFirstVisibleIndex_walk. apply walk_bounds.
Qed.

(** C4: [_getFirstVisibleIndex] returns exactly the count of items consumed
    by the reference walk, which accumulates sizes while [acc <= offset] and
    stops once [acc > offset]. Consequently the empty collection yields 0
    for every offset and, when sizes are non-negative, every offset at or
    beyond the total size yields the length of the collection. *)
Theorem getFirstVisibleIndex_is_reference_walk {Item : Type}
    (s : AdaptiveHeightStrategy Item) :
  (forall offset,
      _getFirstVisibleIndex s offset
      = Spec.firstIndexAtOrBeyond (_itemSizeFn s) (_items s) offset)
  /\ (_items s = [] -> forall offset, _getFirstVisibleIndex s offset = 0)
  /\ (Forall (fun x => 0 <= _itemSizeFn s x) (_items s) ->
      forall offset,
        Spec.totalSize (_itemSizeFn s) (_items s) <= offset ->
        _getFirstVisibleIndex s offset = Z.of_nat (List.length (_items s))).
Proof.
  split; [|split].
  - apply _getFirstVisibleIndex_walk.
  - intros Hnil offset. rewrite _getFirstVisibleIndex_walk, Hnil. reflexivity.
  - intros Hsizes offset Hle. rewrite _getFirstVisibleIndex_walk.
    unfold Spec.firstIndexAtOrBeyond. apply walk_all; [assumption | lia].
Qed.

Lemma getFirstVisibleIndex_is_reference_walk_witness :
  _getFirstVisibleIndex (mkStrategy new_Subject None height [] 100 200) 7 = 0
  /\ _getFirstVisibleIndex (mkStrategy new_Subject None height fifty 100 200) 1000 = 50.
Proof.
  split.
  - apply (proj1 (proj2 (getFirstVisibleIndex_is_reference_walk
                           (mkStrategy new_Subject None height [] 100 200)))).
    reflexivity.
  - apply (proj2 (proj2 (getFirstVisibleIndex_is_reference_walk
                           (mkStrategy new_Subject None height fifty 100 200)))).
    + apply forallb_nonneg. reflexivity.
    + vm_compute. discriminate.
Defined.

(** C3, as the code has it: for every item collection and every offset
    below 0, [_getFirstVisibleIndex] returns 0; and with 50 items of 20px,
    a viewport of 500px, [minBufferPx] 100 and [maxBufferPx] 200, the
    recomputation at scroll offset 0 commits the range from 0 to 36 with
    content offset 0, and commits the same again when it is repeated. *)
Theorem getFirstVisibleIndex_below_zero_and_scenario_at_top :
  (forall (Item : Type) (s : AdaptiveHeightStrategy Item) (offset : Z),
      offset < 0 -> _getFirstVisibleIndex s offset = 0)
  /\ (let w := after (attach 0%nat) (constructed fifty 100 200 (fresh_viewport 0 500 50)) in
      let w' := after onContentScrolled w in
      committed w = mkRange 0 36
      /\ vp_renderedContentOffset (heap w 0%nat) = 0
      /\ committed w' = mkRange 0 36
      /\ vp_renderedContentOffset (heap w' 0%nat) = 0).
Proof.
  split.
  - intros Item s offset H. rewrite _getFirstVisibleIndex_walk.
    unfold Spec.firstIndexAtOrBeyond. apply walk_past. exact H.
  - vm_compute. repeat split.
Qed.

Lemma getFirstVisibleIndex_below_zero_and_scenario_at_top_witness :
  -1 < 0
  /\ _getFirstVisibleIndex (mkStrategy new_Subject None height fifty 100 200) (-1) = 0.
Proof.
  split; [lia|].
  apply (proj1 getFirstVisibleIndex_below_zero_and_scenario_at_top). lia.
Defined.

(** C3 as stated fails at offset 0: the walk consumes the first item before
    it compares the accumulator with the offset again, so on the 50 items of
    20px the index at offset 0 is 1, and 1 is what the recomputation at the
    top of the list publishes. *)
Lemma getFirstVisibleIndex_at_zero_counterexample :
  ~ (forall (s : AdaptiveHeightStrategy Z) (offset : Z),
        offset <= 0 -> _getFirstVisibleIndex s offset = 0)
  /\ _getFirstVisibleIndex (mkStrategy new_Subject None height fifty 100 200) 0 = 1
  /\ scrolledIndexChange
       (this (after (attach 0%nat) (constructed fifty 100 200 (fresh_viewport 0 500 50))))
     = [1].
Proof.
  split; [|split].
  - intro H.
    specialize (H (mkStrategy new_Subject None height fifty 100 200) 0 (Z.le_refl 0)).
    vm_compute in H. discriminate.
  - reflexivity.
  - reflexivity.
Qed.

(** ** Configuration: the constructor and [updateItemAndBufferSize] *)

(** The worlds of the scenarios start from the strategy the constructor
    returns. *)
Fact constructed_by_constructor (items : list Z) (minBufferPx maxBufferPx : Z)
    (v : Viewport) :
  constructor height items minBufferPx maxBufferPx
  = Return (this (constructed items minBufferPx maxBufferPx v)).
Proof. reflexivity. Qed.

(** C6: the constructor does not compare the two thresholds. Called with
    [minBufferPx] 100 and [maxBufferPx] 50 it returns a strategy that holds
    exactly these thresholds, where [updateItemAndBufferSize] with the same
    arguments throws. *)
Theorem constructor_keeps_inverted_thresholds :
  (exists s : AdaptiveHeightStrategy Z,
      constructor height fifty 100 50 = Return s
      /\ _minBufferPx s = 100 /\ _maxBufferPx s = 50
      /\ _maxBufferPx s < _minBufferPx s)
  /\ (forall w : World Z,
        updateItemAndBufferSize height fifty 100 50 w = (Throw ConfigError, w)).
Proof.
  split.
  - eexists. split; [reflexivity|]. cbn. repeat split; lia.
  - intro w. reflexivity.
Qed.

Section Configuration.

Context {Item : Type}.

Lemma _updateRenderedRange_returns (w : World Item) :
  fst (_updateRenderedRange w) = Return tt.
Proof.
  destruct (_viewport (this w)) as [vp|] eqn:E.
  - apply (_updateRenderedRange_attached w vp E).
  - now rewrite _updateRenderedRange_detached.
Qed.

Lemma _updateTotalContentSize_returns (w : World Item) :
  fst (_updateTotalContentSize w) = Return tt.
Proof.
  destruct (_viewport (this w)) as [vp|] eqn:E.
  - apply (_updateTotalContentSize_attached w vp E).
  - now rewrite _updateTotalContentSize_detached.
Qed.

(** The two recomputations in sequence, as every caller but
    [onContentScrolled] runs them. *)
Lemma recompute_both (w : World Item) :
  bind _updateTotalContentSize (fun _ => _updateRenderedRange) w
  = (Return tt, snd (_updateRenderedRange (snd (_updateTotalContentSize w)))).
Proof.
  unfold bind.
  pose proof (_updateTotalContentSize_returns w) as H1.
  destruct (_updateTotalContentSize w) as [r1 w1] eqn:E1.
  cbn [fst snd] in *. subst r1.
  pose proof (_updateRenderedRange_returns w1) as H2.
  destruct (_updateRenderedRange w1) as [r2 w2] eqn:E2.
  cbn [fst snd] in *. subst r2.
  reflexivity.
Qed.

Lemma updateItemAndBufferSize_accepts (w : World Item)
    (itemSizeFn : Item -> Z) (items : list Item) (minBufferPx maxBufferPx : Z) :
  minBufferPx <= maxBufferPx ->
  updateItemAndBufferSize itemSizeFn items minBufferPx maxBufferPx w
  = (Return tt,
     snd (_updateRenderedRange
            (snd (_updateTotalContentSize
                    (configured w itemSizeFn items minBufferPx maxBufferPx))))).
Proof.
  intro H. unfold updateItemAndBufferSize.
  assert ((maxBufferPx <? minBufferPx) = false) as -> by (apply Z.ltb_ge; lia).
  rewrite <- recompute_both. reflexivity.
Qed.

End Configuration.



(** ** The update of the rendered range *)

Section RangeUpdate.

Context {Item : Type}.
Variable s : AdaptiveHeightStrategy Item.

Lemma slice0_firstn (e : Z) :
  0 <= e -> slice0 (_items s) e = firstn (Z.to_nat e) (_items s).
Proof.
  intro H. unfold slice0.
  assert ((e <? 0) = false) as -> by (apply Z.ltb_ge; lia).
  replace (Z.to_nat (Z.min e (Z.of_nat (List.length (_items s)))))
    with (Nat.min (Z.to_nat e) (List.length (_items s))) by lia.
  rewrite <- firstn_firstn. now rewrite firstn_all.
Qed.

Lemma _getItemSize_slice0 (e : Z) :
  0 <= e ->
  _getItemSize s (slice0 (_items s) e)
  = Spec.cumulativeSize (_itemSizeFn s) (_items s) e.
Proof.
  intro H. rewrite _getItemSize_totalSize, slice0_firstn by exact H. reflexivity.
Qed.

(** Lines 171 and 175-208 compute the two-branch update. *)
Lemma newRange_twoBranch (scrollOffset viewportSize dataLength : Z) (range : ListRange) :
  0 <= start range -> 0 <= end_ range ->
  _updateRenderedRange_newRange s scrollOffset (_getFirstVisibleIndex s scrollOffset)
    range viewportSize dataLength
  = Spec.twoBranch (_itemSizeFn s) (_items s) (_minBufferPx s) (_maxBufferPx s)
      scrollOffset viewportSize dataLength range.
Proof.
  intros Hs He. destruct range as [st en]. cbn [start end_] in *.
  unfold _updateRenderedRange_newRange, Spec.twoBranch, Math_ceil, Math_max, Math_min.
  cbn [start end_].
  rewrite !_getItemSize_slice0 by assumption.
  rewrite !_getFirstVisibleIndex_walk.
  destruct ((scrollOffset - Spec.cumulativeSize (_itemSizeFn s) (_items s) st
             <? _minBufferPx s) && negb (st =? 0)); [reflexivity|].
  destruct ((Spec.cumulativeSize (_itemSizeFn s) (_items s) en
             - (scrollOffset + viewportSize) <? _minBufferPx s)
            && negb (en =? dataLength)); [|reflexivity].
  rewrite Z.gtb_ltb. cbn [andb].
  destruct (0 <? _) ; reflexivity.
Qed.

End RangeUpdate.

(** C1: in every recomputation pass with a viewport attached, the range
    that is committed is the two-branch update of the range read from the
    viewport (whose indices are not negative): the start side is expanded
    when [startBuffer] is below [minBufferPx] and [start] is not 0; else the
    end side is expanded when [endBuffer] is below [minBufferPx], [end] is
    not [dataLength] and [expandEnd] is positive; else the range is
    unchanged. The committed range is the one passed to [setRenderedRange]. *)
Theorem updateRenderedRange_follows_two_branches {Item : Type}
    (w : World Item) (vp : ViewportRef) :
  _viewport (this w) = Some vp ->
  0 <= start (vp_renderedRange (heap w vp)) ->
  0 <= end_ (vp_renderedRange (heap w vp)) ->
  let s := this w in
  let v := heap w vp in
  let v' := heap (snd (_updateRenderedRange w)) vp in
  let range :=
    Spec.twoBranch (_itemSizeFn s) (_items s) (_minBufferPx s) (_maxBufferPx s)
      (vp_scrollOffset v) (vp_viewportSize v) (vp_dataLength v) (vp_renderedRange v) in
  vp_renderedRange v' = range
  /\ vp_calls v'
     = vp_calls v
       ++ [MeasureScrollOffset; GetRenderedRange; GetViewportSize; GetDataLength;
           SetRenderedRange range;
           SetRenderedContentOffset
             (Spec.cumulativeSize (_itemSizeFn s) (_items s) (start range))].
Proof.
  intros Hvp Hs He s v v' range.
  destruct (_updateRenderedRange_attached w vp Hvp) as (_ & _ & Hv' & _).
  fold v v' s in Hv'.
  assert (Hr : pass_newRange s v = range).
  { unfold pass_newRange. now apply newRange_twoBranch. }
  rewrite Hv'. cbn [vp_renderedRange vp_calls].
  split; [exact Hr|].
  unfold pass_calls, pass_contentOffset. rewrite Hr.
  rewrite _getItemSize_slice0; [reflexivity|].
  subst range v. unfold Spec.twoBranch.
  repeat match goal with |- context [if ?b then _ else _] => destruct b end;
    cbn [start]; lia.
Qed.

Lemma updateRenderedRange_follows_two_branches_witness :
  let w := after (attach 0%nat) (constructed fifty 100 200 (fresh_viewport 0 500 50)) in
  vp_renderedRange (heap (snd (_updateRenderedRange (host_scrolls 0%nat 400 w))) 0%nat)
  = Spec.twoBranch height fifty 100 200 400 500 50 (mkRange 0 36).
Proof.
  intro w.
  apply (updateRenderedRange_follows_two_branches (host_scrolls 0%nat 400 w) 0%nat).
  - reflexivity.
  - vm_compute. discriminate.
  - vm_compute. discriminate.
Defined.

(** ** Bounds of the committed range *)

Section RangeBounds.

Context {Item : Type}.
Variable s : AdaptiveHeightStrategy Item.
Variable v : Viewport.

Hypothesis prior : well_formed (vp_dataLength v) (vp_renderedRange v).
Hypothesis all_items : vp_dataLength v = Z.of_nat (List.length (_items s)).
Hypothesis sizes : Forall (fun x => 0 <= _itemSizeFn s x) (_items s).

Local Abbreviation size := (_itemSizeFn s).
Local Abbreviation items := (_items s).

Lemma firstVisibleIndex_past_start :
  Spec.cumulativeSize size items (start (vp_renderedRange v)) <= vp_scrollOffset v ->
  start (vp_renderedRange v) <= Spec.firstIndexAtOrBeyond size items (vp_scrollOffset v).
Proof.
  intro H. destruct prior as (H0 & H1 & H2).
  unfold Spec.firstIndexAtOrBeyond, Spec.cumulativeSize in *.
  destruct (Z.eq_dec (start (vp_renderedRange v)) (Z.of_nat (List.length items))) as [E|E].
  - rewrite E in *. rewrite Nat2Z.id, firstn_all in H.
    rewrite walk_all by (assumption || lia). lia.
  - pose proof (walk_gt_prefix size items 0 (vp_scrollOffset v)
                  (Z.to_nat (start (vp_renderedRange v))) sizes) as Hw.
    lia.
Qed.

Lemma firstVisibleIndex_before_end :
  vp_scrollOffset v < Spec.cumulativeSize size items (end_ (vp_renderedRange v)) ->
  Spec.firstIndexAtOrBeyond size items (vp_scrollOffset v) <= end_ (vp_renderedRange v).
Proof.
  intro H. destruct prior as (H0 & H1 & H2).
  unfold Spec.firstIndexAtOrBeyond, Spec.cumulativeSize in *.
  pose proof (walk_le_prefix size items 0 (vp_scrollOffset v)
                (Z.to_nat (end_ (vp_renderedRange v)))) as Hw.
  lia.
Qed.

Lemma pass_newRange_bounds :
  within (vp_dataLength v) (pass_newRange s v)
  /\ (Spec.cumulativeSize size items (start (vp_renderedRange v)) <= vp_scrollOffset v
      /\ vp_scrollOffset v < Spec.cumulativeSize size items (end_ (vp_renderedRange v)) ->
      start (pass_newRange s v) <= end_ (pass_newRange s v)).
Proof.
  pose proof prior as (H0 & H1 & H2).
  pose proof all_items as Hlen.
  unfold pass_newRange. rewrite newRange_twoBranch by lia.
  unfold Spec.twoBranch, within.
  set (fvi := Spec.firstIndexAtOrBeyond size items (vp_scrollOffset v)).
  pose proof (walk_bounds size items 0 (vp_scrollOffset v)) as Bf.
  fold (Spec.firstIndexAtOrBeyond size items (vp_scrollOffset v)) in Bf. fold fvi in Bf.
  match goal with |- context [if ?b then _ else _] => destruct b eqn:B1 end.
  - cbn [start end_].
    match goal with |- context [start _ - ?e] => set (expandStart := e) end.
    match goal with |- context [fvi + ?e] => set (cover := e) end.
    pose proof (walk_bounds size items 0
                  (_maxBufferPx s - (vp_scrollOffset v
                     - Spec.cumulativeSize size items (start (vp_renderedRange v))))) as Be.
    pose proof (walk_bounds size items 0 (vp_viewportSize v + _minBufferPx s)) as Bc.
    fold (Spec.firstIndexAtOrBeyond size items
            (_maxBufferPx s - (vp_scrollOffset v
               - Spec.cumulativeSize size items (start (vp_renderedRange v))))) in Be.
    fold (Spec.firstIndexAtOrBeyond size items (vp_viewportSize v + _minBufferPx s)) in Bc.
    fold expandStart in Be. fold cover in Bc.
    split; [lia|]. intros [Hs _].
    pose proof (firstVisibleIndex_past_start Hs) as Hp. fold fvi in Hp. lia.
  - match goal with |- context [if ?b then _ else _] => destruct b eqn:B2 end.
    + cbn [start end_].
      apply andb_prop in B2 as [_ Hpos]. apply Z.ltb_lt in Hpos.
      match type of Hpos with 0 < ?e => set (expandEnd := e) in * end.
      match goal with |- context [fvi - ?e] => set (cover := e) end.
      pose proof (walk_bounds size items 0 (_minBufferPx s)) as Bc.
      fold (Spec.firstIndexAtOrBeyond size items (_minBufferPx s)) in Bc.
      fold cover in Bc.
      split; [lia|]. intros [_ He].
      pose proof (firstVisibleIndex_before_end He) as Hp. fold fvi in Hp. lia.
    + split; lia.
Qed.

(** With non-negative sizes, an offset that a prefix of the list does not
    exceed gives an index at or past the end of that prefix. *)
Lemma index_past_prefix (k offset : Z) :
  0 <= k <= Z.of_nat (List.length items) ->
  Spec.cumulativeSize size items k <= offset ->
  k <= Spec.firstIndexAtOrBeyond size items offset.
Proof.
  intros Hk H.
  unfold Spec.firstIndexAtOrBeyond, Spec.cumulativeSize in *.
  destruct (Z.eq_dec k (Z.of_nat (List.length items))) as [E|E].
  - rewrite E in *. rewrite Nat2Z.id, firstn_all in H.
    rewrite walk_all by (assumption || lia). lia.
  - pose proof (walk_gt_prefix size items 0 offset (Z.to_nat k) sizes) as Hw.
    lia.
Qed.

(** The committed range is ordered when on each side the pass has nothing
    to do, or the offset the side is expanded for reaches far enough. *)
Lemma pass_newRange_ordered :
  (start (vp_renderedRange v) = 0
   \/ _minBufferPx s <= startBuffer s v (vp_renderedRange v)
   \/ Spec.cumulativeSize size items (start (vp_renderedRange v)) <= vp_scrollOffset v
   \/ vp_scrollOffset v <= _maxBufferPx s) ->
  (end_ (vp_renderedRange v) = vp_dataLength v
   \/ _minBufferPx s <= endBuffer s v (vp_renderedRange v)
   \/ vp_scrollOffset v < Spec.cumulativeSize size items (end_ (vp_renderedRange v))
   \/ Spec.cumulativeSize size items (end_ (vp_renderedRange v))
      <= _maxBufferPx s + vp_viewportSize v) ->
  start (pass_newRange s v) <= end_ (pass_newRange s v).
Proof.
  pose proof prior as (H0 & H1 & H2).
  pose proof all_items as Hlen.
  unfold startBuffer, endBuffer. rewrite !_getItemSize_slice0 by lia.
  intros HA HB.
  unfold pass_newRange. rewrite newRange_twoBranch by lia.
  unfold Spec.twoBranch.
  set (cs := Spec.cumulativeSize size items (start (vp_renderedRange v))) in *.
  set (ce := Spec.cumulativeSize size items (end_ (vp_renderedRange v))) in *.
  set (fvi := Spec.firstIndexAtOrBeyond size items (vp_scrollOffset v)).
  pose proof (walk_bounds size items 0 (vp_scrollOffset v)) as Bf.
  fold (Spec.firstIndexAtOrBeyond size items (vp_scrollOffset v)) in Bf. fold fvi in Bf.
  match goal with |- context [if ?b then _ else _] => destruct b eqn:B1 end.
  - cbn [start end_].
    apply andb_prop in B1 as [B1 B1']. apply Z.ltb_lt in B1.
    apply negb_true_iff in B1'. apply Z.eqb_neq in B1'.
    match goal with |- context [start _ - ?e] => set (expandStart := e) end.
    match goal with |- context [fvi + ?e] => set (cover := e) end.
    pose proof (walk_bounds size items 0 (_maxBufferPx s - (vp_scrollOffset v - cs))) as Be.
    pose proof (walk_bounds size items 0 (vp_viewportSize v + _minBufferPx s)) as Bc.
    fold (Spec.firstIndexAtOrBeyond size items
            (_maxBufferPx s - (vp_scrollOffset v - cs))) in Be.
    fold (Spec.firstIndexAtOrBeyond size items (vp_viewportSize v + _minBufferPx s)) in Bc.
    fold expandStart in Be. fold cover in Bc.
    destruct HA as [HA | [HA | [HA | HA]]]; try lia.
    + pose proof (index_past_prefix (start (vp_renderedRange v)) (vp_scrollOffset v)
                    ltac:(lia) HA) as Hp.
      fold fvi in Hp. lia.
    + destruct (Z.le_gt_cases cs (vp_scrollOffset v)) as [Hle | Hgt].
      * pose proof (index_past_prefix (start (vp_renderedRange v)) (vp_scrollOffset v)
                      ltac:(lia) Hle) as Hp.
        fold fvi in Hp. lia.
      * assert (Hoff : cs <= _maxBufferPx s - (vp_scrollOffset v - cs)) by lia.
        pose proof (index_past_prefix (start (vp_renderedRange v))
                      (_maxBufferPx s - (vp_scrollOffset v - cs)) ltac:(lia) Hoff) as Hp.
        fold expandStart in Hp. lia.
  - match goal with |- context [if ?b then _ else _] => destruct b eqn:B2 end;
      [|lia].
    cbn [start end_].
    apply andb_prop in B2 as [B2 Hpos]. apply andb_prop in B2 as [B2 B2'].
    apply Z.ltb_lt in Hpos. apply Z.ltb_lt in B2.
    apply negb_true_iff in B2'. apply Z.eqb_neq in B2'.
    match type of Hpos with 0 < ?e => set (expandEnd := e) in * end.
    match goal with |- context [fvi - ?e] => set (cover := e) end.
    pose proof (walk_bounds size items 0 (_minBufferPx s)) as Bc.
    fold (Spec.firstIndexAtOrBeyond size items (_minBufferPx s)) in Bc.
    fold cover in Bc.
    destruct HB as [HB | [HB | [HB | HB]]]; try lia.
    + pose proof (firstVisibleIndex_before_end HB) as Hp. fold fvi in Hp. lia.
    + assert (Hmono : fvi <= expandEnd).
      { subst fvi expandEnd. unfold Spec.firstIndexAtOrBeyond.
        apply walk_monotone. fold ce. lia. }
      lia.
Qed.

(** When no run of items is smaller than the run of as many items at the
    head of the list, the count of items that the walk returns for a
    distance in pixels is never less than the count of items that lie in
    that distance elsewhere in the list, and the committed range is
    ordered. *)
Lemma pass_newRange_ordered_head_lightest :
  head_lightest size items ->
  0 <= _maxBufferPx s ->
  0 <= _maxBufferPx s + vp_viewportSize v ->
  start (pass_newRange s v) <= end_ (pass_newRange s v).
Proof.
  pose proof prior as (H0 & H1 & H2).
  pose proof all_items as Hlen.
  intros Hhead Hmax Hmaxvp.
  unfold pass_newRange. rewrite newRange_twoBranch by lia.
  unfold Spec.twoBranch.
  set (cs := Spec.cumulativeSize size items (start (vp_renderedRange v))) in *.
  set (ce := Spec.cumulativeSize size items (end_ (vp_renderedRange v))) in *.
  set (fvi := Spec.firstIndexAtOrBeyond size items (vp_scrollOffset v)).
  pose proof (walk_bounds size items 0 (vp_scrollOffset v)) as Bf.
  fold (Spec.firstIndexAtOrBeyond size items (vp_scrollOffset v)) in Bf. fold fvi in Bf.
  match goal with |- context [if ?b then _ else _] => destruct b eqn:B1 end.
  - cbn [start end_].
    match goal with |- context [start _ - ?e] => set (expandStart := e) end.
    match goal with |- context [fvi + ?e] => set (cover := e) end.
    pose proof (walk_bounds size items 0 (_maxBufferPx s - (vp_scrollOffset v - cs))) as Be.
    pose proof (walk_bounds size items 0 (vp_viewportSize v + _minBufferPx s)) as Bc.
    fold (Spec.firstIndexAtOrBeyond size items
            (_maxBufferPx s - (vp_scrollOffset v - cs))) in Be.
    fold (Spec.firstIndexAtOrBeyond size items (vp_viewportSize v + _minBufferPx s)) in Bc.
    fold expandStart in Be. fold cover in Bc.
    destruct (Z.le_gt_cases (start (vp_renderedRange v)) fvi) as [Hle | Hgt]; [lia|].
    assert (Hexp : start (vp_renderedRange v) - fvi <= expandStart).
    { set (j := Z.to_nat fvi).
      set (k := Z.to_nat (start (vp_renderedRange v) - fvi - 1)).
      assert (Hjk : (j + k <= List.length items)%nat) by lia.
      pose proof (Hhead j k Hjk) as Hh.
      destruct (walk_stops size items 0 (vp_scrollOffset v)) as [Hs | Hs];
        [unfold fvi, Spec.firstIndexAtOrBeyond in Hgt; lia|].
      fold (Spec.firstIndexAtOrBeyond size items (vp_scrollOffset v)) in Hs.
      fold fvi in Hs. fold j in Hs.
      pose proof (totalSize_firstn_monotone size items (j + k)
                    (Z.to_nat (start (vp_renderedRange v))) sizes ltac:(lia)) as Hm.
      fold (Spec.cumulativeSize size items (start (vp_renderedRange v))) in Hm.
      fold cs in Hm.
      pose proof (walk_gt_prefix size items 0
                    (_maxBufferPx s - (vp_scrollOffset v - cs)) k sizes ltac:(lia)
                    ltac:(lia)) as Hw.
      fold (Spec.firstIndexAtOrBeyond size items
              (_maxBufferPx s - (vp_scrollOffset v - cs))) in Hw.
      fold expandStart in Hw. lia. }
    lia.
  - match goal with |- context [if ?b then _ else _] => destruct b eqn:B2 end;
      [|lia].
    cbn [start end_].
    apply andb_prop in B2 as [B2 Hpos]. apply Z.ltb_lt in Hpos.
    match type of Hpos with 0 < ?e => set (expandEnd := e) in * end.
    match goal with |- context [fvi - ?e] => set (cover := e) end.
    pose proof (walk_bounds size items 0 (_minBufferPx s)) as Bc.
    fold (Spec.firstIndexAtOrBeyond size items (_minBufferPx s)) in Bc.
    fold cover in Bc.
    destruct (Z.le_gt_cases fvi (end_ (vp_renderedRange v))) as [Hle | Hgt]; [lia|].
    assert (Hexp : fvi - end_ (vp_renderedRange v) <= expandEnd).
    { set (j := Z.to_nat (end_ (vp_renderedRange v))).
      set (k := Z.to_nat (fvi - end_ (vp_renderedRange v) - 1)).
      assert (Hjk : (j + k <= List.length items)%nat) by lia.
      pose proof (Hhead j k Hjk) as Hh.
      assert (Hce : Spec.totalSize size (firstn j items) = ce) by reflexivity.
      pose proof (walk_consumed size items 0 (vp_scrollOffset v) (j + k)) as Hc.
      fold (Spec.firstIndexAtOrBeyond size items (vp_scrollOffset v)) in Hc.
      fold fvi in Hc. specialize (Hc ltac:(lia)).
      pose proof (walk_gt_prefix size items 0
                    (_maxBufferPx s - (ce - (vp_scrollOffset v + vp_viewportSize v)))
                    k sizes ltac:(lia) ltac:(lia)) as Hw.
      fold (Spec.firstIndexAtOrBeyond size items
              (_maxBufferPx s - (ce - (vp_scrollOffset v + vp_viewportSize v)))) in Hw.
      fold expandEnd in Hw. lia. }
    lia.
Qed.

End RangeBounds.

(** A list of items of one size is such a list. *)
Lemma uniform_head_lightest {Item : Type} (size : Item -> Z) (items : list Item) (c : Z) :
  Forall (fun x => size x = c) items -> head_lightest size items.
Proof.
  intro H.
  assert (Hsum : forall k : nat, (k <= List.length items)%nat ->
                   Spec.totalSize size (firstn k items) = c * Z.of_nat k).
  { induction H as [|x items Hx _ IH]; intros k Hk.
    - rewrite firstn_nil. cbn in *. replace k with 0%nat by lia. lia.
    - destruct k as [|k]; [cbn; lia|].
      cbn [List.length] in Hk. cbn [firstn Spec.totalSize].
      rewrite IH by lia. rewrite Hx, Nat2Z.inj_succ. ring. }
  intros j k Hjk. rewrite !Hsum by lia. rewrite Nat2Z.inj_add.
  apply Z.eq_le_incl. ring.
Qed.

Section BothRecomputations.

Context {Item : Type}.

Lemma recompute_both_attached (w : World Item) (vp : ViewportRef) :
  _viewport (this w) = Some vp ->
  let v := heap w vp in
  let total := _getItemSize (this w) (_items (this w)) in
  let w' := snd (_updateRenderedRange (snd (_updateTotalContentSize w))) in
  this w' = published (Math_floor (_getFirstVisibleIndex (this w) (vp_scrollOffset v))) (this w)
  /\ heap w' vp
     = mkViewport (vp_scrollOffset v) (vp_viewportSize v) (vp_dataLength v)
         (pass_newRange (this w) v) (pass_contentOffset (this w) v)
         total (vp_calls v ++ SetTotalContentSize total :: pass_calls (this w) v)
  /\ (forall r, r <> vp -> heap w' r = heap w r).
Proof.
  intros E v total.
  destruct (_updateTotalContentSize_attached w vp E) as (_ & Hthis & Hvp & Hother).
  set (w1 := snd (_updateTotalContentSize w)) in *. clearbody w1.
  assert (E1 : _viewport (this w1) = Some vp) by (rewrite Hthis; exact E).
  destruct (_updateRenderedRange_attached w1 vp E1) as (_ & Hthis2 & Hvp2 & Hother2).
  set (w2 := snd (_updateRenderedRange w1)) in *. clearbody w2.
  cbv zeta. split; [|split].
  - rewrite Hthis2, Hthis, Hvp. reflexivity.
  - rewrite Hvp2, Hvp, Hthis.
    unfold pass_calls, pass_contentOffset, pass_newRange.
    cbn [vp_totalContentSize vp_renderedRange vp_calls vp_scrollOffset
         vp_viewportSize vp_dataLength vp_renderedContentOffset].
    rewrite <- app_assoc. reflexivity.
  - intros r Hr. rewrite Hother2, Hother by exact Hr. reflexivity.
Qed.

(** What a call that recomputes leaves in the attached viewport. *)
Lemma recomputes_commits_pass (c : Call Item) (w : World Item) (vp : ViewportRef) :
  recomputes c = true ->
  fst (perform c w) = Return tt ->
  _viewport (this (snd (perform c w))) = Some vp ->
  exists s0 : AdaptiveHeightStrategy Item,
    _items s0 = _items (this (snd (perform c w)))
    /\ _itemSizeFn s0 = _itemSizeFn (this (snd (perform c w)))
    /\ _minBufferPx s0 = _minBufferPx (this (snd (perform c w)))
    /\ _maxBufferPx s0 = _maxBufferPx (this (snd (perform c w)))
    /\ vp_renderedRange (heap (snd (perform c w)) vp) = pass_newRange s0 (heap w vp).
Proof.
  intros Hc Hret Hvp.
  destruct c as [vp0| |f its mn mx| | | | |]; try discriminate Hc; cbn [perform] in *.
  - (* attach *)
    set (w0 := mkWorld (mkStrategy (_scrolledIndexChange (this w)) (Some vp0)
                          (_itemSizeFn (this w)) (_items (this w))
                          (_minBufferPx (this w)) (_maxBufferPx (this w))) (heap w)).
    assert (Ha : attach vp0 w
                 = (Return tt, snd (_updateRenderedRange (snd (_updateTotalContentSize w0))))).
    { unfold attach. rewrite <- recompute_both. reflexivity. }
    rewrite Ha in *. cbn [snd] in *.
    destruct (recompute_both_attached w0 vp0 eq_refl) as (Ht & Hv & _).
    rewrite Ht in Hvp. cbn in Hvp. injection Hvp as <-.
    exists (this w0). rewrite Ht, Hv. repeat split.
  - (* updateItemAndBufferSize *)
    unfold updateItemAndBufferSize in *.
    destruct (mx <? mn) eqn:Hlt; [discriminate Hret|].
    apply Z.ltb_ge in Hlt.
    pose proof (updateItemAndBufferSize_accepts w f its mn mx Hlt) as Ha.
    unfold updateItemAndBufferSize in Ha.
    assert ((mx <? mn) = false) as Hb by (apply Z.ltb_ge; lia).
    rewrite Hb in Ha. rewrite Ha in *. cbn [snd] in *.
    set (w0 := configured w f its mn mx) in *.
    destruct (_viewport (this w0)) as [vp0|] eqn:E.
    + destruct (recompute_both_attached w0 vp0 E) as (Ht & Hv & _).
      rewrite Ht in Hvp. cbn in Hvp, E. rewrite E in Hvp. injection Hvp as <-.
      exists (this w0). rewrite Ht, Hv. repeat split.
    + rewrite (_updateTotalContentSize_detached w0 E) in Hvp. cbn [snd] in Hvp.
      rewrite (_updateRenderedRange_detached w0 E) in Hvp. cbn [snd] in Hvp.
      congruence.
  - (* onContentScrolled *)
    unfold onContentScrolled in *.
    destruct (_viewport (this w)) as [vp0|] eqn:E.
    + destruct (_updateRenderedRange_attached w vp0 E) as (_ & Ht & Hv & _).
      rewrite Ht in Hvp. cbn in Hvp. rewrite E in Hvp. injection Hvp as <-.
      exists (this w). rewrite Ht, Hv. repeat split.
    + rewrite (_updateRenderedRange_detached w E) in Hvp. cbn [snd] in Hvp. congruence.
  - (* onDataLengthChanged *)
    unfold onDataLengthChanged in *. rewrite recompute_both in *. cbn [snd] in *.
    destruct (_viewport (this w)) as [vp0|] eqn:E.
    + destruct (recompute_both_attached w vp0 E) as (Ht & Hv & _).
      rewrite Ht in Hvp. cbn in Hvp. rewrite E in Hvp. injection Hvp as <-.
      exists (this w). rewrite Ht, Hv. repeat split.
    + rewrite (_updateTotalContentSize_detached w E) in Hvp. cbn [snd] in Hvp.
      rewrite (_updateRenderedRange_detached w E) in Hvp. cbn [snd] in Hvp.
      congruence.
Qed.

End BothRecomputations.




(** ** Which recomputation runs on which event *)

(** C9: [onContentScrolled] recomputes the rendered range only. With a
    viewport attached it makes the six calls of the range pass, among them
    [setRenderedRange] with the two-branch update of the range it read and
    [setRenderedContentOffset] with the offset of the new start, and the
    viewport then holds that range and that offset; no viewport receives
    [setTotalContentSize], and the total content size of every viewport is
    what it was. [onDataLengthChanged], with a viewport attached, first
    commits the sum of the sizes of all items as the total content size and
    then runs the same pass. *)
Theorem scroll_and_data_length_events {Item : Type} (w : World Item) :
  (forall r,
      let w' := snd (onContentScrolled w) in
      vp_totalContentSize (heap w' r) = vp_totalContentSize (heap w r)
      /\ exists calls,
           vp_calls (heap w' r) = vp_calls (heap w r) ++ calls
           /\ forallb (fun c => negb (is_setTotalContentSize c)) calls = true)
  /\ (forall vp,
        _viewport (this w) = Some vp ->
        let w' := snd (onContentScrolled w) in
        let s := this w in
        let v := heap w vp in
        fst (onContentScrolled w) = Return tt
        /\ vp_calls (heap w' vp)
           = vp_calls v
             ++ [MeasureScrollOffset; GetRenderedRange; GetViewportSize; GetDataLength;
                 SetRenderedRange (pass_newRange s v);
                 SetRenderedContentOffset (pass_contentOffset s v)]
        /\ vp_renderedRange (heap w' vp) = pass_newRange s v
        /\ vp_renderedContentOffset (heap w' vp) = pass_contentOffset s v
        /\ _scrolledIndexChange (this w')
           = next (_getFirstVisibleIndex s (vp_scrollOffset v)) (_scrolledIndexChange s)
        /\ (0 <= start (vp_renderedRange v) ->
            0 <= end_ (vp_renderedRange v) ->
            pass_newRange s v
            = Spec.twoBranch (_itemSizeFn s) (_items s) (_minBufferPx s) (_maxBufferPx s)
                (vp_scrollOffset v) (vp_viewportSize v) (vp_dataLength v)
                (vp_renderedRange v)))
  /\ (forall vp,
        _viewport (this w) = Some vp ->
        let w' := snd (onDataLengthChanged w) in
        let total := Spec.totalSize (_itemSizeFn (this w)) (_items (this w)) in
        vp_totalContentSize (heap w' vp) = total
        /\ vp_calls (heap w' vp)
           = vp_calls (heap w vp)
             ++ SetTotalContentSize total :: pass_calls (this w) (heap w vp)
        /\ vp_renderedRange (heap w' vp) = pass_newRange (this w) (heap w vp)).
Proof.
  split; [|split].
  - intro r. cbv zeta. unfold onContentScrolled.
    destruct (_viewport (this w)) as [vp|] eqn:E.
    + destruct (_updateRenderedRange_attached w vp E) as (_ & _ & Hv & Hother).
      destruct (Nat.eq_dec r vp) as [->|Hr].
      * rewrite Hv. cbn [vp_totalContentSize vp_calls].
        split; [reflexivity|]. exists (pass_calls (this w) (heap w vp)).
        split; reflexivity.
      * rewrite Hother by exact Hr. split; [reflexivity|].
        exists []. rewrite app_nil_r. split; reflexivity.
    + rewrite (_updateRenderedRange_detached w E). cbn [snd].
      split; [reflexivity|]. exists []. rewrite app_nil_r. split; reflexivity.
  - intros vp E. cbv zeta. unfold onContentScrolled.
    destruct (_updateRenderedRange_attached w vp E) as (Hret & Ht & Hv & _).
    rewrite Hv, Ht. cbn [vp_calls vp_renderedRange vp_renderedContentOffset].
    split; [exact Hret|]. split; [reflexivity|]. split; [reflexivity|].
    split; [reflexivity|]. split; [reflexivity|].
    intros Hs He. unfold pass_newRange. now apply newRange_twoBranch.
  - intros vp E. cbv zeta. unfold onDataLengthChanged. rewrite recompute_both.
    cbn [snd].
    destruct (recompute_both_attached w vp E) as (_ & Hv & _).
    rewrite Hv. cbn [vp_totalContentSize vp_calls vp_renderedRange].
    rewrite _getItemSize_totalSize. repeat split.
Qed.

Lemma scroll_and_data_length_events_witness :
  vp_totalContentSize (heap (snd (onDataLengthChanged fifty_attached)) 0%nat) = 1000
  /\ vp_renderedRange
       (heap (snd (onContentScrolled (host_scrolls 0%nat 400 fifty_attached))) 0%nat)
     = mkRange 15 50.
Proof.
  split.
  - apply (proj2 (proj2 (scroll_and_data_length_events fifty_attached)) 0%nat).
    reflexivity.
  - pose proof (proj1 (proj2 (scroll_and_data_length_events
                                (host_scrolls 0%nat 400 fifty_attached))) 0%nat eq_refl)
      as H.
    cbv zeta in H. destruct H as (_ & _ & Hr & _). rewrite Hr. reflexivity.
Defined.

(** ** After [detach] *)

Section Detached.

Context {Item : Type}.

Lemma detach_inert (w : World Item) :
  fst (detach w) = Return tt
  /\ inert (snd (detach w))
  /\ heap (snd (detach w)) = heap w
  /\ values (_scrolledIndexChange (this (snd (detach w))))
     = values (_scrolledIndexChange (this w)).
Proof.
  unfold inert, detach, bind, Subject_complete, set_viewport, set_this. cbn.
  unfold complete. destruct (isStopped (_scrolledIndexChange (this w))) eqn:E;
    cbn; rewrite ?E; repeat split.
Qed.

Lemma detach_again (w : World Item) :
  inert w -> detach w = (Return tt, w).
Proof.
  intros [Hv Hs]. destruct w as [[subj v f its mn mx] h]. cbn in *. subst v.
  unfold detach, bind, Subject_complete, set_viewport, set_this. cbn.
  unfold complete. rewrite Hs. reflexivity.
Qed.

Lemma inert_call (c : Call Item) (w : World Item) :
  is_attach c = false ->
  inert w ->
  inert (snd (perform c w))
  /\ heap (snd (perform c w)) = heap w
  /\ _scrolledIndexChange (this (snd (perform c w))) = _scrolledIndexChange (this w).
Proof.
  intros Hc [Hv Hs].
  destruct c as [vp0| |f its mn mx| | | | |idx b]; try discriminate Hc; cbn [perform].
  - rewrite detach_again by (split; assumption). cbn [snd]. repeat split; assumption.
  - destruct (Z.ltb_spec mx mn) as [Hlt|Hge].
    + unfold updateItemAndBufferSize.
      assert ((mx <? mn) = true) as -> by (apply Z.ltb_lt; exact Hlt).
      cbn. repeat split; assumption.
    + rewrite (updateItemAndBufferSize_accepts w f its mn mx Hge). cbn [snd].
      assert (E : _viewport (this (configured w f its mn mx)) = None) by exact Hv.
      rewrite (_updateTotalContentSize_detached _ E). cbn [snd].
      rewrite (_updateRenderedRange_detached _ E). cbn [snd].
      unfold inert. cbn. repeat split; assumption.
  - unfold onContentScrolled. rewrite (_updateRenderedRange_detached w Hv).
    cbn [snd]. repeat split; assumption.
  - unfold onDataLengthChanged. rewrite recompute_both.
    rewrite (_updateTotalContentSize_detached w Hv). cbn [snd].
    rewrite (_updateRenderedRange_detached w Hv). cbn [snd].
    repeat split; assumption.
  - cbn. repeat split; assumption.
  - cbn. repeat split; assumption.
  - unfold scrollToIndex, bind, get_this. rewrite Hv. cbn.
    repeat split; assumption.
Qed.

Lemma inert_calls (cs : list (Call Item)) (w : World Item) :
  forallb (fun c => negb (is_attach c)) cs = true ->
  inert w ->
  inert (snd (perform_all cs w))
  /\ heap (snd (perform_all cs w)) = heap w
  /\ _scrolledIndexChange (this (snd (perform_all cs w))) = _scrolledIndexChange (this w).
Proof.
  revert w. induction cs as [|c cs IH]; intros w Hcs Hw.
  - cbn. split; [exact Hw | split; reflexivity].
  - cbn [forallb] in Hcs. apply andb_prop in Hcs as [Hc Hcs].
    apply negb_true_iff in Hc.
    destruct (inert_call c w Hc Hw) as (Hi & Hh & Hsub).
    cbn [perform_all].
    destruct (perform c w) as [r w1]. cbn [snd] in *.
    specialize (IH w1 Hcs Hi). destruct (perform_all cs w1) as [rs w2].
    cbn [snd] in *. destruct IH as (Hi2 & Hh2 & Hsub2).
    split; [exact Hi2 | split; congruence].
Qed.

End Detached.

(** C7: after [detach] the subject has completed and the strategy holds no
    viewport; every later sequence of calls without [attach]
    (onContentScrolled, onDataLengthChanged, updateItemAndBufferSize,
    scrollToIndex, the two no-ops and further detaches) leaves every
    viewport object as it was, so no viewport call is made, and passes no
    further value to the observers of [scrolledIndexChange]; and [detach]
    called again returns normally and changes nothing. *)
Theorem detach_ends_calls_and_values {Item : Type}
    (w : World Item) (cs : list (Call Item)) :
  forallb (fun c => negb (is_attach c)) cs = true ->
  let wd := snd (detach w) in
  let w' := snd (perform_all cs wd) in
  fst (detach w) = Return tt
  /\ isStopped (_scrolledIndexChange (this wd)) = true
  /\ _viewport (this wd) = None
  /\ heap wd = heap w
  /\ heap w' = heap wd
  /\ values (_scrolledIndexChange (this w')) = values (_scrolledIndexChange (this w))
  /\ scrolledIndexChange (this w') = scrolledIndexChange (this w)
  /\ isStopped (_scrolledIndexChange (this w')) = true
  /\ _viewport (this w') = None
  /\ detach w' = (Return tt, w').
Proof.
  intros Hcs wd w'.
  destruct (detach_inert w) as (Hret & Hinert & Hheap & Hvalues).
  fold wd in Hinert, Hheap, Hvalues.
  destruct (inert_calls cs wd Hcs Hinert) as (Hinert' & Hheap' & Hsubject).
  fold w' in Hinert', Hheap', Hsubject.
  assert (Hv : values (_scrolledIndexChange (this w'))
               = values (_scrolledIndexChange (this w))) by congruence.
  repeat match goal with |- _ /\ _ => split end;
    try assumption; try apply Hinert; try apply Hinert'.
  - unfold scrolledIndexChange. now rewrite Hv.
  - now apply detach_again.
Qed.

Lemma detach_ends_calls_and_values_witness :
  vp_calls (heap (snd (perform_all
                         [OnContentScrolled; ScrollToIndex 3 behavior_smooth;
                          OnDataLengthChanged; Detach;
                          UpdateItemAndBufferSize height header_and_rows 100 200]
                         (snd (detach fifty_attached)))) 0%nat)
  = vp_calls (heap fifty_attached 0%nat)
  /\ scrolledIndexChange
       (this (snd (perform_all
                     [OnContentScrolled; ScrollToIndex 3 behavior_smooth;
                      OnDataLengthChanged; Detach;
                      UpdateItemAndBufferSize height header_and_rows 100 200]
                     (snd (detach fifty_attached)))))
     = [1].
Proof.
  pose proof (detach_ends_calls_and_values fifty_attached
                [OnContentScrolled; ScrollToIndex 3 behavior_smooth;
                 OnDataLengthChanged; Detach;
                 UpdateItemAndBufferSize height header_and_rows 100 200]
                eq_refl) as H.
  cbv zeta in H.
  destruct H as (_ & _ & _ & Hd & Hh & _ & Hs & _).
  split.
  - rewrite Hh, Hd. reflexivity.
  - rewrite Hs. reflexivity.
Defined.

(** ** The same scroll event twice *)

Lemma distinctUntilChanged_from_repeated (prev : option Z) (l : list Z) (v : Z) :
  distinctUntilChanged_from prev ((l ++ [v]) ++ [v])
  = distinctUntilChanged_from prev (l ++ [v]).
Proof.
  revert prev. induction l as [|x l IH]; intro prev.
  - cbn. destruct prev as [p|].
    + destruct (v =? p) eqn:E; [reflexivity|].
      cbn. now rewrite Z.eqb_refl.
    + cbn. now rewrite Z.eqb_refl.
  - cbn. destruct prev as [p|].
    + destruct (x =? p); [apply IH|]. f_equal. apply IH.
    + f_equal. apply IH.
Qed.

Lemma next_twice (v : Z) (subj : Subject) :
  distinctUntilChanged (values (next v (next v subj)))
  = distinctUntilChanged (values (next v subj)).
Proof.
  unfold next. destruct (isStopped subj) eqn:E.
  - now rewrite E.
  - cbn. apply distinctUntilChanged_from_repeated.
Qed.

(** C8, as the code has it: when [onContentScrolled] runs twice and the
    scroll offset is the same, the observers of [scrolledIndexChange]
    receive nothing from the second run, since it publishes the value the
    first run published. The second run commits the range and the content
    offset of the first run when the range of the first run leaves at least
    [minBufferPx] before the visible area or starts at 0, and leaves at
    least [minBufferPx] after the visible area or ends at the data length. *)
Theorem onContentScrolled_twice {Item : Type} (w : World Item) :
  let w1 := snd (onContentScrolled w) in
  let w2 := snd (onContentScrolled w1) in
  scrolledIndexChange (this w2) = scrolledIndexChange (this w1)
  /\ (forall vp,
        _viewport (this w) = Some vp ->
        let s := this w in
        let v1 := heap w1 vp in
        let r1 := vp_renderedRange v1 in
        (_minBufferPx s <= startBuffer s v1 r1 \/ start r1 = 0) ->
        (_minBufferPx s <= endBuffer s v1 r1 \/ end_ r1 = vp_dataLength v1) ->
        vp_renderedRange (heap w2 vp) = r1
        /\ vp_renderedContentOffset (heap w2 vp) = vp_renderedContentOffset v1).
Proof.
  intros w1 w2. subst w2 w1. unfold onContentScrolled.
  destruct (_viewport (this w)) as [vp|] eqn:E.
  - destruct (_updateRenderedRange_attached w vp E) as (_ & Ht & Hv & _).
    set (w1 := snd (_updateRenderedRange w)) in *. clearbody w1.
    assert (E1 : _viewport (this w1) = Some vp) by (rewrite Ht; exact E).
    destruct (_updateRenderedRange_attached w1 vp E1) as (_ & Ht2 & Hv2 & _).
    set (w2 := snd (_updateRenderedRange w1)) in *. clearbody w2.
    assert (Hscroll : vp_scrollOffset (heap w1 vp) = vp_scrollOffset (heap w vp))
      by (rewrite Hv; reflexivity).
    split.
    + rewrite Ht2, Hscroll, Ht. unfold scrolledIndexChange, published.
      cbn [_scrolledIndexChange].
      change (_getFirstVisibleIndex
                (mkStrategy _ (_viewport (this w)) (_itemSizeFn (this w))
                   (_items (this w)) (_minBufferPx (this w)) (_maxBufferPx (this w)))
                (vp_scrollOffset (heap w vp)))
        with (_getFirstVisibleIndex (this w) (vp_scrollOffset (heap w vp))).
      apply next_twice.
    + intros vp' Hvp'. injection Hvp' as <-. cbv zeta. intros Hstart Hend.
      assert (Hr : pass_newRange (this w1) (heap w1 vp) = vp_renderedRange (heap w1 vp)).
      { rewrite Ht.
        change (pass_newRange (published _ (this w)) (heap w1 vp))
          with (pass_newRange (this w) (heap w1 vp)).
        unfold startBuffer, endBuffer in Hstart, Hend.
        unfold pass_newRange, _updateRenderedRange_newRange. cbn [start end_].
        destruct (vp_renderedRange (heap w1 vp)) as [st en]. cbn [start end_] in *.
        match goal with |- context [if ?b then _ else _] => destruct b eqn:B1 end.
        - apply andb_prop in B1 as [B1 B1']. apply Z.ltb_lt in B1.
          apply negb_true_iff in B1'. apply Z.eqb_neq in B1'. lia.
        - match goal with |- context [if ?b then _ else _] => destruct b eqn:B2 end;
            [|reflexivity].
          apply andb_prop in B2 as [B2 B2']. apply Z.ltb_lt in B2.
          apply negb_true_iff in B2'. apply Z.eqb_neq in B2'. lia. }
      rewrite Hv2. cbn [vp_renderedRange vp_renderedContentOffset].
      split; [exact Hr|].
      unfold pass_contentOffset. rewrite Hr.
      rewrite Hv at 2. cbn [vp_renderedContentOffset].
      rewrite Ht. unfold pass_contentOffset.
      rewrite Hv. cbn [vp_renderedRange]. reflexivity.
  - rewrite (_updateRenderedRange_detached w E). cbn [snd].
    rewrite (_updateRenderedRange_detached w E). cbn [snd].
    split; [reflexivity|]. intros vp Hvp. discriminate.
Qed.

Lemma onContentScrolled_twice_witness :
  vp_renderedRange
    (heap (snd (onContentScrolled (snd (onContentScrolled fifty_attached)))) 0%nat)
  = vp_renderedRange (heap (snd (onContentScrolled fifty_attached)) 0%nat).
Proof.
  apply (proj2 (onContentScrolled_twice fifty_attached) 0%nat).
  - reflexivity.
  - right. reflexivity.
  - left. vm_compute. discriminate.
Defined.

(** C8 as stated fails for the range. With 50 items of 20px, [minBufferPx]
    90 and [maxBufferPx] 200, the first [onContentScrolled] at 400px commits
    the range from 16 to 50, which leaves 80px before the visible area; the
    second one, at the same offset, expands the start side and commits the
    range from 9 to 50. The value 21 is published both times and delivered
    once. *)
Lemma onContentScrolled_twice_counterexample :
  vp_scrollOffset (heap fifty_tight_scrolled 0%nat) = 400
  /\ vp_scrollOffset (heap (after onContentScrolled fifty_tight_scrolled) 0%nat) = 400
  /\ committed fifty_tight_scrolled = mkRange 16 50
  /\ committed (after onContentScrolled fifty_tight_scrolled) = mkRange 9 50
  /\ committed (after onContentScrolled fifty_tight_scrolled)
     <> committed fifty_tight_scrolled
  /\ scrolledIndexChange (this (after onContentScrolled fifty_tight_scrolled)) = [1; 21].
Proof.
  repeat split; try reflexivity.
  vm_compute. discriminate.
Qed.

(** * Further properties of the strategy *)

(** ** Indices and offsets *)

Section PrefixSums.

Context {Item : Type}.
Variable size : Item -> Z.

Lemma totalSize_firstn_succ (items : list Item) (k : nat) :
  Forall (fun x => 0 < size x) items ->
  (k < List.length items)%nat ->
  Spec.totalSize size (firstn k items) < Spec.totalSize size (firstn (S k) items).
Proof.
  intro H. revert k. induction H as [|x items Hx Hall IH]; intros k Hk; cbn in Hk; [lia|].
  destruct k as [|k].
  - cbn [firstn Spec.totalSize]. lia.
  - change (firstn (S (S k)) (x :: items)) with (x :: firstn (S k) items).
    change (firstn (S k) (x :: items)) with (x :: firstn k items).
    cbn [Spec.totalSize]. specialize (IH k). lia.
Qed.

Lemma positive_nonneg (items : list Item) :
  Forall (fun x => 0 < size x) items -> Forall (fun x => 0 <= size x) items.
Proof.
  intro H. eapply Forall_impl; [|exact H]. cbn. intros. lia.
Qed.

End PrefixSums.

(** The size of a slice from 0, whatever the end index. *)
Lemma _getItemSize_slice0_any {Item : Type} (s : AdaptiveHeightStrategy Item) (e : Z) :
  exists k : nat,
    _getItemSize s (slice0 (_items s) e) = Spec.totalSize (_itemSizeFn s) (firstn k (_items s)).
Proof.
  unfold slice0. eexists. rewrite _getItemSize_totalSize. reflexivity.
Qed.

(** X1: for every size function and offset, the index [i] that
    [_getFirstVisibleIndex] returns is the least index whose items before it
    add up to more than the offset: every shorter slice from 0 adds up to
    at most the offset, and either the slice of length [i] adds up to more
    than the offset or [i] is the number of items. *)
Theorem getFirstVisibleIndex_least_exceeding {Item : Type}
    (s : AdaptiveHeightStrategy Item) (offset : Z) :
  let i := _getFirstVisibleIndex s offset in
  (forall j, 0 <= j < i -> _getItemSize s (slice0 (_items s) j) <= offset)
  /\ (i = Z.of_nat (List.length (_items s))
      \/ offset < _getItemSize s (slice0 (_items s) i)).
Proof.
  cbv zeta. rewrite _getFirstVisibleIndex_walk. unfold Spec.firstIndexAtOrBeyond.
  pose proof (walk_bounds (_itemSizeFn s) (_items s) 0 offset) as B.
  split.
  - intros j Hj. rewrite _getItemSize_slice0 by lia. unfold Spec.cumulativeSize.
    pose proof (walk_consumed (_itemSizeFn s) (_items s) 0 offset (Z.to_nat j)). lia.
  - destruct (walk_stops (_itemSizeFn s) (_items s) 0 offset) as [H|H].
    + left. exact H.
    + right. rewrite _getItemSize_slice0 by lia. unfold Spec.cumulativeSize. lia.
Qed.

(** X2: [_getFirstVisibleIndex] is monotone: a larger offset never gives a
    smaller index, for every size function. *)
Theorem getFirstVisibleIndex_monotone {Item : Type}
    (s : AdaptiveHeightStrategy Item) (offset offset' : Z) :
  offset <= offset' ->
  _getFirstVisibleIndex s offset <= _getFirstVisibleIndex s offset'.
Proof.
  intro H. rewrite !_getFirstVisibleIndex_walk. now apply walk_monotone.
Qed.

Lemma getFirstVisibleIndex_monotone_witness :
  400 <= 410
  /\ _getFirstVisibleIndex (this fifty_attached) 400
     <= _getFirstVisibleIndex (this fifty_attached) 410.
Proof.
  split; [lia|]. apply getFirstVisibleIndex_monotone. lia.
Defined.

(** X3: with sizes that are not negative, the size of the slice of the
    first [a] items is not negative, grows with [a], and never exceeds the
    size of all items. *)
Theorem getItemSize_of_slices_monotone {Item : Type}
    (s : AdaptiveHeightStrategy Item) (a b : Z) :
  Forall (fun x => 0 <= _itemSizeFn s x) (_items s) ->
  0 <= a <= b ->
  0 <= _getItemSize s (slice0 (_items s) a)
  /\ _getItemSize s (slice0 (_items s) a) <= _getItemSize s (slice0 (_items s) b)
  /\ _getItemSize s (slice0 (_items s) b) <= _getItemSize s (_items s).
Proof.
  intros Hsizes Hab.
  rewrite !_getItemSize_slice0 by lia. rewrite _getItemSize_totalSize.
  unfold Spec.cumulativeSize.
  pose proof (totalSize_firstn_le (_itemSizeFn s) (_items s) (Z.to_nat a) Hsizes).
  pose proof (totalSize_firstn_le (_itemSizeFn s) (_items s) (Z.to_nat b) Hsizes).
  pose proof (totalSize_firstn_monotone (_itemSizeFn s) (_items s)
                (Z.to_nat a) (Z.to_nat b) Hsizes).
  lia.
Qed.

Lemma getItemSize_of_slices_monotone_witness :
  _getItemSize (this alternating_attached) (slice0 alternating 2)
  <= _getItemSize (this alternating_attached) (slice0 alternating 5).
Proof.
  apply (getItemSize_of_slices_monotone (this alternating_attached) 2 5).
  - apply forallb_nonneg. reflexivity.
  - lia.
Defined.

(** X4: with sizes that are all positive, the offset [scrollToIndex]
    computes for an index [k] of the list is an offset at which
    [_getFirstVisibleIndex] returns [k + 1]: the item at [k] is counted
    as consumed. *)
Theorem getFirstVisibleIndex_at_offset_of_index {Item : Type}
    (s : AdaptiveHeightStrategy Item) (k : Z) :
  Forall (fun x => 0 < _itemSizeFn s x) (_items s) ->
  0 <= k < Z.of_nat (List.length (_items s)) ->
  _getFirstVisibleIndex s (_getItemSize s (slice0 (_items s) k)) = k + 1.
Proof.
  intros Hpos Hk.
  rewrite _getFirstVisibleIndex_walk, _getItemSize_slice0 by lia.
  unfold Spec.firstIndexAtOrBeyond, Spec.cumulativeSize.
  pose proof (positive_nonneg _ _ Hpos) as Hnn.
  pose proof (walk_gt_prefix (_itemSizeFn s) (_items s) 0
                (Spec.totalSize (_itemSizeFn s) (firstn (Z.to_nat k) (_items s)))
                (Z.to_nat k) Hnn) as Hlow.
  pose proof (walk_le_prefix (_itemSizeFn s) (_items s) 0
                (Spec.totalSize (_itemSizeFn s) (firstn (Z.to_nat k) (_items s)))
                (S (Z.to_nat k))) as Hup.
  pose proof (totalSize_firstn_succ (_itemSizeFn s) (_items s) (Z.to_nat k) Hpos) as Hs.
  lia.
Qed.

Lemma getFirstVisibleIndex_at_offset_of_index_witness :
  _getFirstVisibleIndex (this alternating_attached)
    (_getItemSize (this alternating_attached) (slice0 alternating 3)) = 3 + 1.
Proof.
  apply (getFirstVisibleIndex_at_offset_of_index (this alternating_attached) 3).
  - apply Forall_forall. intros x Hx.
    assert (forallb (fun y => 0 <? height y) alternating = true) as Hb by reflexivity.
    rewrite forallb_forall in Hb. apply Z.ltb_lt. now apply Hb.
  - vm_compute. split; [discriminate | reflexivity].
Defined.

Lemma getFirstVisibleIndex_least_exceeding_witness :
  _getItemSize (this alternating_attached) (slice0 alternating 2) <= 100
  /\ 100 < _getItemSize (this alternating_attached)
             (slice0 alternating (_getFirstVisibleIndex (this alternating_attached) 100)).
Proof.
  pose proof (getFirstVisibleIndex_least_exceeding (this alternating_attached) 100) as H.
  cbv zeta in H. destruct H as [Hbelow Hstop]. split.
  - apply Hbelow. vm_compute. split; [discriminate | reflexivity].
  - destruct Hstop as [Hall | Hgt]; [|exact Hgt].
    vm_compute in Hall. discriminate Hall.
Defined.

(** ** [scrollToIndex] *)

(** X5: with a viewport attached, [scrollToIndex(index, behavior)] makes
    exactly one call, [scrollToOffset] with the size of the slice of the
    items before [index] and with the behavior it was given; it returns
    normally, leaves the strategy and every other viewport object as they
    were, and publishes nothing. *)
Theorem scrollToIndex_makes_one_call {Item : Type}
    (w : World Item) (vp : ViewportRef) (index : Z) (behavior : ScrollBehavior) :
  _viewport (this w) = Some vp ->
  let w' := snd (scrollToIndex index behavior w) in
  fst (scrollToIndex index behavior w) = Return tt
  /\ this w' = this w
  /\ heap w' vp
     = record_call
         (ScrollToOffset (_getItemSize (this w) (slice0 (_items (this w)) index)) behavior)
         (heap w vp)
  /\ (forall r, r <> vp -> heap w' r = heap w r).
Proof.
  intro H. unfold scrollToIndex, bind, get_this. rewrite H. cbn.
  repeat split.
  - now rewrite update_same.
  - intros r Hr. now rewrite update_other.
Qed.

Lemma scrollToIndex_makes_one_call_witness :
  vp_calls (heap (snd (scrollToIndex 3 behavior_smooth alternating_attached)) 0%nat)
  = vp_calls (heap alternating_attached 0%nat) ++ [ScrollToOffset 70 behavior_smooth].
Proof.
  pose proof (scrollToIndex_makes_one_call alternating_attached 0%nat 3 behavior_smooth
                eq_refl) as H.
  cbv zeta in H. destruct H as (_ & _ & Hv & _). rewrite Hv. reflexivity.
Defined.

(** X6: the offset [scrollToIndex] asks for, by the position of the index:
    an index from 0 to the number of items gives the size of that many
    leading items (0 for index 0); an index at or beyond the number of
    items gives the size of all items; a negative index counts from the
    end of the list, and one below minus the number of items gives 0. *)
Theorem scrollToIndex_offset_by_index {Item : Type}
    (s : AdaptiveHeightStrategy Item) (index : Z) :
  let n := Z.of_nat (List.length (_items s)) in
  let offset := _getItemSize s (slice0 (_items s) index) in
  (index = 0 -> offset = 0)
  /\ (0 <= index ->
      offset = Spec.totalSize (_itemSizeFn s) (firstn (Z.to_nat index) (_items s)))
  /\ (n <= index -> offset = _getItemSize s (_items s))
  /\ (- n <= index < 0 ->
      offset = Spec.totalSize (_itemSizeFn s) (firstn (Z.to_nat (n + index)) (_items s)))
  /\ (index < - n -> offset = 0).
Proof.
  cbv zeta. repeat split.
  - intros ->. rewrite _getItemSize_slice0 by lia. reflexivity.
  - intro H. now rewrite _getItemSize_slice0.
  - intro H. rewrite _getItemSize_slice0 by lia. rewrite _getItemSize_totalSize.
    unfold Spec.cumulativeSize. rewrite firstn_all2 by lia. reflexivity.
  - intro H. rewrite _getItemSize_totalSize. unfold slice0.
    assert ((index <? 0) = true) as -> by (apply Z.ltb_lt; lia).
    rewrite Z.max_l by lia. reflexivity.
  - intro H. rewrite _getItemSize_totalSize. unfold slice0.
    assert ((index <? 0) = true) as -> by (apply Z.ltb_lt; lia).
    rewrite Z.max_r by lia. reflexivity.
Qed.

Lemma scrollToIndex_offset_by_index_witness :
  _getItemSize (this alternating_attached) (slice0 alternating 99) = 180
  /\ _getItemSize (this alternating_attached) (slice0 alternating (-1)) = 130.
Proof.
  pose proof (scrollToIndex_offset_by_index (this alternating_attached) 99) as H1.
  pose proof (scrollToIndex_offset_by_index (this alternating_attached) (-1)) as H2.
  cbv zeta in H1, H2.
  destruct H1 as (_ & _ & Hall & _). destruct H2 as (_ & _ & _ & Hneg & _).
  split.
  - assert (Hi : Z.of_nat (List.length (_items (this alternating_attached))) <= 99)
      by (vm_compute; discriminate).
    specialize (Hall Hi).
    change (_items (this alternating_attached)) with alternating in Hall.
    rewrite Hall. reflexivity.
  - assert (Hi : - Z.of_nat (List.length (_items (this alternating_attached))) <= -1 < 0)
      by (vm_compute; split; [discriminate | reflexivity]).
    specialize (Hneg Hi).
    change (_items (this alternating_attached)) with alternating in Hneg.
    rewrite Hneg. reflexivity.
Defined.

(** ** Edge cases of a pass *)

Section PassEdges.

Context {Item : Type}.

Lemma getFirstVisibleIndex_no_items (s : AdaptiveHeightStrategy Item) (offset : Z) :
  _items s = [] -> _getFirstVisibleIndex s offset = 0.
Proof.
  intro H. rewrite _getFirstVisibleIndex_walk, H. reflexivity.
Qed.

Lemma pass_newRange_no_items (s : AdaptiveHeightStrategy Item) (v : Viewport) :
  _items s = [] ->
  start (vp_renderedRange v) = 0 ->
  pass_newRange s v = vp_renderedRange v.
Proof.
  intros Hnil Hstart. unfold pass_newRange, _updateRenderedRange_newRange.
  cbn [start end_]. rewrite Hstart. rewrite Z.eqb_refl. cbn [negb].
  rewrite andb_false_r.
  rewrite (getFirstVisibleIndex_no_items s _ Hnil). unfold Math_ceil.
  change (0 >? 0) with false.
  destruct (vp_renderedRange v) as [st en]. cbn [start end_] in *. subst st.
  destruct (_ && _); reflexivity.
Qed.

Lemma pass_newRange_all_rendered (s : AdaptiveHeightStrategy Item) (v : Viewport) :
  start (vp_renderedRange v) = 0 ->
  end_ (vp_renderedRange v) = vp_dataLength v ->
  pass_newRange s v = vp_renderedRange v.
Proof.
  intros Hstart Hend. unfold pass_newRange, _updateRenderedRange_newRange.
  cbn [start end_]. rewrite Hstart, Hend, !Z.eqb_refl. cbn [negb].
  rewrite !andb_false_r.
  destruct (vp_renderedRange v) as [st en]. cbn [start end_] in *. now subst.
Qed.

Lemma pass_newRange_clamped (s : AdaptiveHeightStrategy Item) (v : Viewport) :
  pass_newRange s v = vp_renderedRange v
  \/ (0 <= start (pass_newRange s v)
      /\ end_ (pass_newRange s v) <= vp_dataLength v).
Proof.
  unfold pass_newRange, _updateRenderedRange_newRange, Math_max, Math_min.
  cbn [start end_].
  destruct (_ && _).
  - right. cbn [start end_]. lia.
  - destruct (_ && _).
    + destruct (_ >? 0).
      * right. cbn [start end_]. lia.
      * left. now destruct (vp_renderedRange v).
    + left. now destruct (vp_renderedRange v).
Qed.

End PassEdges.

(** X7: with no items and a viewport attached whose rendered range starts
    at 0, [onDataLengthChanged] commits 0 as total content size, leaves the
    rendered range as it is, commits 0 as content offset and passes the
    index 0 to the subject, whatever the scroll offset, the viewport size,
    the data length and the buffers. *)
Theorem no_items_nothing_rendered {Item : Type} (w : World Item) (vp : ViewportRef) :
  _viewport (this w) = Some vp ->
  _items (this w) = [] ->
  start (vp_renderedRange (heap w vp)) = 0 ->
  let w' := snd (onDataLengthChanged w) in
  vp_totalContentSize (heap w' vp) = 0
  /\ vp_renderedRange (heap w' vp) = vp_renderedRange (heap w vp)
  /\ vp_renderedContentOffset (heap w' vp) = 0
  /\ _scrolledIndexChange (this w') = next 0 (_scrolledIndexChange (this w)).
Proof.
  intros Hvp Hnil Hstart. cbv zeta. unfold onDataLengthChanged.
  rewrite recompute_both. cbn [snd].
  destruct (recompute_both_attached w vp Hvp) as (Ht & Hv & _).
  rewrite Ht, Hv. cbn [vp_totalContentSize vp_renderedRange vp_renderedContentOffset].
  unfold pass_contentOffset.
  rewrite (pass_newRange_no_items (this w) (heap w vp) Hnil Hstart).
  rewrite Hstart, (getFirstVisibleIndex_no_items (this w) _ Hnil), Hnil.
  repeat split.
Qed.

Lemma no_items_nothing_rendered_witness :
  vp_renderedRange
    (heap (snd (onDataLengthChanged
                  (after (attach 0%nat) (constructed [] 100 200 (fresh_viewport 30 500 0))))) 0%nat)
  = mkRange 0 0.
Proof.
  pose proof (no_items_nothing_rendered
                (after (attach 0%nat) (constructed [] 100 200 (fresh_viewport 30 500 0)))
                0%nat eq_refl eq_refl eq_refl) as H.
  cbv zeta in H. destruct H as (_ & Hr & _). rewrite Hr. reflexivity.
Defined.

(** X8: when the range of the attached viewport starts at 0 and ends at the
    data length, [onContentScrolled] commits that same range, for every
    scroll offset, list of items, size function and pair of buffers. *)
Theorem all_rendered_range_is_kept {Item : Type} (w : World Item) (vp : ViewportRef) :
  _viewport (this w) = Some vp ->
  start (vp_renderedRange (heap w vp)) = 0 ->
  end_ (vp_renderedRange (heap w vp)) = vp_dataLength (heap w vp) ->
  vp_renderedRange (heap (snd (onContentScrolled w)) vp) = vp_renderedRange (heap w vp).
Proof.
  intros Hvp Hstart Hend. unfold onContentScrolled.
  destruct (_updateRenderedRange_attached w vp Hvp) as (_ & _ & Hv & _).
  rewrite Hv. cbn [vp_renderedRange].
  now apply pass_newRange_all_rendered.
Qed.

Lemma all_rendered_range_is_kept_witness :
  vp_renderedRange
    (heap (snd (onContentScrolled (host_scrolls 0%nat 77 alternating_attached))) 0%nat)
  = vp_renderedRange (heap (host_scrolls 0%nat 77 alternating_attached) 0%nat).
Proof.
  apply (all_rendered_range_is_kept (host_scrolls 0%nat 77 alternating_attached) 0%nat);
    reflexivity.
Defined.

(** X9: whatever the viewport holds before, the range [onContentScrolled]
    commits is either the range it read or a range whose start is at least
    0 and whose end is at most the data length. *)
Theorem committed_range_kept_or_clamped {Item : Type} (w : World Item) (vp : ViewportRef) :
  _viewport (this w) = Some vp ->
  let r := vp_renderedRange (heap w vp) in
  let r' := vp_renderedRange (heap (snd (onContentScrolled w)) vp) in
  r' = r \/ (0 <= start r' /\ end_ r' <= vp_dataLength (heap w vp)).
Proof.
  intro Hvp. cbv zeta. unfold onContentScrolled.
  destruct (_updateRenderedRange_attached w vp Hvp) as (_ & _ & Hv & _).
  rewrite Hv. cbn [vp_renderedRange]. apply pass_newRange_clamped.
Qed.

Lemma committed_range_kept_or_clamped_witness :
  committed header_scrolled = committed (host_scrolls 0%nat 3000 header_attached)
  \/ (0 <= start (committed header_scrolled) /\ end_ (committed header_scrolled) <= 101).
Proof.
  apply (committed_range_kept_or_clamped (host_scrolls 0%nat 3000 header_attached) 0%nat).
  reflexivity.
Defined.

(** ** What every call does and does not do *)

Section Growth.

Context {Item : Type}.

Implicit Types (w : World Item) (c : Call Item).

Lemma grows_from_refl (scrolls : bool) w : grows_from scrolls w w.
Proof.
  repeat split.
  - intro r. exists []. now rewrite app_nil_r.
  - exists []. rewrite app_nil_r. split; [reflexivity|]. split; [constructor | reflexivity].
  - trivial.
Qed.

Lemma grows_from_trans (scrolls : bool) w1 w2 w3 :
  grows_from scrolls w1 w2 -> grows_from scrolls w2 w3 -> grows_from scrolls w1 w3.
Proof.
  intros (Hc1 & (vs1 & Hv1 & Hp1 & Hs1) & Hst1) (Hc2 & (vs2 & Hv2 & Hp2 & Hs2) & Hst2).
  repeat split.
  - intro r. destruct (Hc1 r) as (n1 & E1 & F1). destruct (Hc2 r) as (n2 & E2 & F2).
    exists (n1 ++ n2). rewrite E2, E1, app_assoc. split; [reflexivity|].
    rewrite forallb_app, F1, F2. reflexivity.
  - exists (vs1 ++ vs2). rewrite Hv2, Hv1, app_assoc. split; [reflexivity|]. split.
    + apply Forall_app. split; assumption.
    + intro H. rewrite (Hs1 H), (Hs2 (Hst1 H)). reflexivity.
  - intro H. apply Hst2, Hst1, H.
Qed.

Lemma grows_from_weaken w w' : grows_from false w w' -> grows_from true w w'.
Proof.
  intros (Hc & Hv & Hs). repeat split; try assumption.
  intro r. destruct (Hc r) as (n & E & F). exists n. split; [exact E|].
  clear E. induction n as [|x n IH]; [reflexivity|].
  cbn in *. apply andb_prop in F as [_ F]. now apply IH.
Qed.

(** The effect of a change of the configuration fields or of the viewport
    reference alone. *)
Lemma grows_from_fields w (v : option ViewportRef) (f : Item -> Z) (its : list Item)
    (mn mx : Z) :
  grows_from false w
    (mkWorld (mkStrategy (_scrolledIndexChange (this w)) v f its mn mx) (heap w)).
Proof.
  repeat split; cbn.
  - intro r. exists []. now rewrite app_nil_r.
  - exists []. rewrite app_nil_r. split; [reflexivity|]. split; [constructor | reflexivity].
  - trivial.
Qed.

Lemma grows_from_updateTotalContentSize w :
  grows_from false w (snd (_updateTotalContentSize w)).
Proof.
  destruct (_viewport (this w)) as [vp|] eqn:E.
  - destruct (_updateTotalContentSize_attached w vp E) as (_ & Ht & Hv & Ho).
    repeat split.
    + intro r. destruct (Nat.eq_dec r vp) as [->|Hr].
      * rewrite Hv. cbn [vp_calls]. eexists. split; reflexivity.
      * rewrite Ho by exact Hr. exists []. now rewrite app_nil_r.
    + exists []. rewrite Ht, app_nil_r. split; [reflexivity|]. split; [constructor | reflexivity].
    + rewrite Ht. trivial.
  - rewrite (_updateTotalContentSize_detached w E). apply grows_from_refl.
Qed.

Lemma grows_from_updateRenderedRange w :
  grows_from false w (snd (_updateRenderedRange w)).
Proof.
  destruct (_viewport (this w)) as [vp|] eqn:E.
  - destruct (_updateRenderedRange_attached w vp E) as (_ & Ht & Hv & Ho).
    repeat split.
    + intro r. destruct (Nat.eq_dec r vp) as [->|Hr].
      * rewrite Hv. cbn [vp_calls]. eexists. split; reflexivity.
      * rewrite Ho by exact Hr. exists []. now rewrite app_nil_r.
    + rewrite Ht. unfold published. cbn [_scrolledIndexChange]. unfold next.
      destruct (isStopped (_scrolledIndexChange (this w))) eqn:Es.
      * exists []. rewrite app_nil_r. split; [reflexivity|]. split; [constructor | reflexivity].
      * eexists. cbn [values]. split; [reflexivity|]. split; [|discriminate].
        constructor; [|constructor]. unfold Math_floor.
        rewrite _getFirstVisibleIndex_walk. apply walk_bounds.
    + rewrite Ht. unfold published. cbn [_scrolledIndexChange]. unfold next.
      intro Hs. now rewrite Hs.
  - rewrite (_updateRenderedRange_detached w E). apply grows_from_refl.
Qed.

Lemma grows_from_recompute_both w :
  grows_from false w (snd (_updateRenderedRange (snd (_updateTotalContentSize w)))).
Proof.
  eapply grows_from_trans.
  - apply grows_from_updateTotalContentSize.
  - apply grows_from_updateRenderedRange.
Qed.

End Growth.

Section Calls.

Context {Item : Type}.

Implicit Types (w : World Item) (c : Call Item).

Lemma perform_all_cons c (cs : list (Call Item)) w :
  snd (perform_all (c :: cs) w) = snd (perform_all cs (snd (perform c w))).
Proof.
  cbn [perform_all]. destruct (perform c w) as [r w1]. cbn [snd].
  destruct (perform_all cs w1) as [rs w2]. reflexivity.
Qed.

Lemma attach_recomputes (vp : ViewportRef) w :
  attach vp w
  = (Return tt,
     snd (_updateRenderedRange
            (snd (_updateTotalContentSize
                    (mkWorld (mkStrategy (_scrolledIndexChange (this w)) (Some vp)
                                (_itemSizeFn (this w)) (_items (this w))
                                (_minBufferPx (this w)) (_maxBufferPx (this w)))
                             (heap w)))))).
Proof.
  unfold attach. rewrite <- recompute_both. reflexivity.
Qed.

Lemma perform_grows c w : grows_from (is_scrollToIndex c) w (snd (perform c w)).
Proof.
  destruct c as [vp| |f its mn mx| | | | |idx b]; cbn [perform is_scrollToIndex].
  - rewrite attach_recomputes. cbn [snd].
    eapply grows_from_trans; [apply grows_from_fields | apply grows_from_recompute_both].
  - unfold detach, bind, Subject_complete, set_viewport, set_this. cbn.
    unfold grows_from. cbn. repeat split.
    + intro r. exists []. now rewrite app_nil_r.
    + exists []. rewrite app_nil_r. split; [|split; [constructor | reflexivity]].
      unfold complete. now destruct (isStopped (_scrolledIndexChange (this w))).
    + intros _. unfold complete.
      now destruct (isStopped (_scrolledIndexChange (this w))) eqn:E.
  - destruct (Z.ltb_spec mx mn) as [Hlt|Hge].
    + unfold updateItemAndBufferSize.
      assert ((mx <? mn) = true) as -> by (apply Z.ltb_lt; exact Hlt).
      apply grows_from_refl.
    + rewrite (updateItemAndBufferSize_accepts w f its mn mx Hge). cbn [snd].
      eapply grows_from_trans; [apply grows_from_fields | apply grows_from_recompute_both].
  - apply grows_from_updateRenderedRange.
  - unfold onDataLengthChanged. rewrite recompute_both.
    apply grows_from_recompute_both.
  - apply grows_from_refl.
  - apply grows_from_refl.
  - unfold scrollToIndex, bind, get_this.
    destruct (_viewport (this w)) as [vp|] eqn:E; [|apply grows_from_refl].
    cbn. unfold grows_from. cbn. repeat split.
    + intro r. unfold update. destruct (Nat.eqb_spec r vp) as [->|Hr].
      * cbn. eexists. split; reflexivity.
      * exists []. now rewrite app_nil_r.
    + exists []. rewrite app_nil_r. split; [reflexivity|]. split; [constructor | reflexivity].
    + trivial.
Qed.

Lemma perform_viewport c w :
  _viewport (this (snd (perform c w)))
  = match c with
    | Attach vp => Some vp
    | Detach => None
    | _ => _viewport (this w)
    end.
Proof.
  destruct c as [vp| |f its mn mx| | | | |idx b]; cbn [perform].
  - rewrite attach_recomputes. cbn [snd].
    destruct (recompute_both_attached
                (mkWorld (mkStrategy (_scrolledIndexChange (this w)) (Some vp)
                            (_itemSizeFn (this w)) (_items (this w))
                            (_minBufferPx (this w)) (_maxBufferPx (this w))) (heap w))
                vp eq_refl) as (Ht & _).
    rewrite Ht. reflexivity.
  - reflexivity.
  - destruct (Z.ltb_spec mx mn) as [Hlt|Hge].
    + unfold updateItemAndBufferSize.
      assert ((mx <? mn) = true) as -> by (apply Z.ltb_lt; exact Hlt). reflexivity.
    + rewrite (updateItemAndBufferSize_accepts w f its mn mx Hge). cbn [snd].
      destruct (_viewport (this w)) as [vp|] eqn:E.
      * destruct (recompute_both_attached (configured w f its mn mx) vp E) as (Ht & _).
        rewrite Ht. exact E.
      * assert (Ec : _viewport (this (configured w f its mn mx)) = None) by exact E.
        rewrite (_updateTotalContentSize_detached _ Ec). cbn [snd].
        rewrite (_updateRenderedRange_detached _ Ec). exact E.
  - unfold onContentScrolled. destruct (_viewport (this w)) as [vp|] eqn:E.
    + destruct (_updateRenderedRange_attached w vp E) as (_ & Ht & _).
      rewrite Ht. exact E.
    + rewrite (_updateRenderedRange_detached w E). exact E.
  - unfold onDataLengthChanged. rewrite recompute_both. cbn [snd].
    destruct (_viewport (this w)) as [vp|] eqn:E.
    + destruct (recompute_both_attached w vp E) as (Ht & _). rewrite Ht. exact E.
    + rewrite (_updateTotalContentSize_detached w E). cbn [snd].
      rewrite (_updateRenderedRange_detached w E). exact E.
  - reflexivity.
  - reflexivity.
  - unfold scrollToIndex, bind, get_this.
    destruct (_viewport (this w)) as [vp|] eqn:E; cbn; [exact E | exact E].
Qed.

(** A call leaves alone every viewport object but the one the strategy is
    attached to, or is being attached to. *)
Lemma perform_frame c w (r : ViewportRef) :
  match c with
  | Attach vp => r <> vp
  | _ => _viewport (this w) <> Some r
  end ->
  heap (snd (perform c w)) r = heap w r.
Proof.
  destruct c as [vp| |f its mn mx| | | | |idx b]; cbn [perform]; intro H.
  - rewrite attach_recomputes. cbn [snd].
    destruct (recompute_both_attached
                (mkWorld (mkStrategy (_scrolledIndexChange (this w)) (Some vp)
                            (_itemSizeFn (this w)) (_items (this w))
                            (_minBufferPx (this w)) (_maxBufferPx (this w))) (heap w))
                vp eq_refl) as (_ & _ & Ho).
    now rewrite Ho.
  - reflexivity.
  - destruct (Z.ltb_spec mx mn) as [Hlt|Hge].
    + unfold updateItemAndBufferSize.
      assert ((mx <? mn) = true) as -> by (apply Z.ltb_lt; exact Hlt). reflexivity.
    + rewrite (updateItemAndBufferSize_accepts w f its mn mx Hge). cbn [snd].
      destruct (_viewport (this w)) as [vp|] eqn:E.
      * destruct (recompute_both_attached (configured w f its mn mx) vp E) as (_ & _ & Ho).
        rewrite Ho; [reflexivity|]. congruence.
      * assert (Ec : _viewport (this (configured w f its mn mx)) = None) by exact E.
        rewrite (_updateTotalContentSize_detached _ Ec). cbn [snd].
        rewrite (_updateRenderedRange_detached _ Ec). reflexivity.
  - unfold onContentScrolled. destruct (_viewport (this w)) as [vp|] eqn:E.
    + destruct (_updateRenderedRange_attached w vp E) as (_ & _ & _ & Ho).
      rewrite Ho; [reflexivity|]. congruence.
    + now rewrite (_updateRenderedRange_detached w E).
  - unfold onDataLengthChanged. rewrite recompute_both. cbn [snd].
    destruct (_viewport (this w)) as [vp|] eqn:E.
    + destruct (recompute_both_attached w vp E) as (_ & _ & Ho).
      rewrite Ho; [reflexivity|]. congruence.
    + rewrite (_updateTotalContentSize_detached w E). cbn [snd].
      now rewrite (_updateRenderedRange_detached w E).
  - reflexivity.
  - reflexivity.
  - unfold scrollToIndex, bind, get_this.
    destruct (_viewport (this w)) as [vp|] eqn:E; [|reflexivity].
    cbn. apply update_other. congruence.
Qed.

Lemma perform_all_grows (cs : list (Call Item)) w :
  grows_from (existsb is_scrollToIndex cs) w (snd (perform_all cs w)).
Proof.
  revert w. induction cs as [|c cs IH]; intro w.
  - apply grows_from_refl.
  - rewrite perform_all_cons. cbn [existsb].
    pose proof (perform_grows c w) as H1. specialize (IH (snd (perform c w))).
    destruct (is_scrollToIndex c); cbn [orb].
    + apply (grows_from_trans true _ _ _ H1).
      destruct (existsb is_scrollToIndex cs); [exact IH | now apply grows_from_weaken].
    + destruct (existsb is_scrollToIndex cs).
      * apply (grows_from_trans true _ _ _ (grows_from_weaken _ _ H1) IH).
      * apply (grows_from_trans false _ _ _ H1 IH).
Qed.

End Calls.

(** X10: after [detach], no sequence of calls, not even one that attaches
    the strategy again, passes a further value to the observers of
    [scrolledIndexChange]: the subject stays completed and the values it
    has passed on stay what they were. *)
Theorem nothing_published_after_detach {Item : Type}
    (w : World Item) (cs : list (Call Item)) :
  let w' := snd (perform_all cs (snd (detach w))) in
  isStopped (_scrolledIndexChange (this w')) = true
  /\ values (_scrolledIndexChange (this w')) = values (_scrolledIndexChange (this w))
  /\ scrolledIndexChange (this w') = scrolledIndexChange (this w).
Proof.
  cbv zeta.
  destruct (detach_inert w) as (_ & (_ & Hstop) & _ & Hvalues).
  destruct (perform_all_grows cs (snd (detach w))) as (_ & (vs & Hv & _ & Hnone) & Hst).
  rewrite (Hnone Hstop), app_nil_r in Hv.
  assert (H : values (_scrolledIndexChange (this (snd (perform_all cs (snd (detach w))))))
              = values (_scrolledIndexChange (this w))) by congruence.
  split; [exact (Hst Hstop)|]. split; [exact H|].
  unfold scrolledIndexChange. now rewrite H.
Qed.

(** X11: a sequence of calls without [scrollToIndex] never calls
    [scrollToOffset]: what each viewport object receives in addition are
    calls other than [scrollToOffset]. *)
Theorem only_scrollToIndex_scrolls {Item : Type}
    (w : World Item) (cs : list (Call Item)) (r : ViewportRef) :
  forallb (fun c => negb (is_scrollToIndex c)) cs = true ->
  exists calls,
    vp_calls (heap (snd (perform_all cs w)) r) = vp_calls (heap w r) ++ calls
    /\ forallb (fun c => negb (is_scrollToOffset c)) calls = true.
Proof.
  intro H.
  assert (E : existsb is_scrollToIndex cs = false).
  { induction cs as [|c cs IH]; [reflexivity|]. cbn in *.
    apply andb_prop in H as [Hc Hcs]. apply negb_true_iff in Hc.
    rewrite Hc. now apply IH. }
  pose proof (perform_all_grows cs w) as (Hcalls & _). rewrite E in Hcalls.
  exact (Hcalls r).
Qed.

Lemma only_scrollToIndex_scrolls_witness :
  exists calls,
    vp_calls (heap (snd (perform_all
                           [OnContentScrolled; OnDataLengthChanged;
                            UpdateItemAndBufferSize height fifty 100 200]
                           alternating_attached)) 0%nat)
    = vp_calls (heap alternating_attached 0%nat) ++ calls
    /\ forallb (fun c => negb (is_scrollToOffset c)) calls = true.
Proof.
  apply (only_scrollToIndex_scrolls alternating_attached
           [OnContentScrolled; OnDataLengthChanged;
            UpdateItemAndBufferSize height fifty 100 200] 0%nat).
  reflexivity.
Defined.

(** X12: a viewport object that the strategy is not attached to, and that no
    call of the sequence attaches it to, stays exactly as it was: it
    receives no call and none of its fields changes. *)
Theorem other_viewports_untouched {Item : Type}
    (w : World Item) (cs : list (Call Item)) (r : ViewportRef) :
  _viewport (this w) <> Some r ->
  forallb (fun c => negb (attaches_to r c)) cs = true ->
  heap (snd (perform_all cs w)) r = heap w r.
Proof.
  revert w. induction cs as [|c cs IH]; intros w Hw Hcs; [reflexivity|].
  cbn [forallb] in Hcs. apply andb_prop in Hcs as [Hc Hcs].
  apply negb_true_iff in Hc.
  rewrite perform_all_cons. rewrite IH.
  - apply perform_frame. destruct c; try exact Hw.
    cbn in Hc. apply Nat.eqb_neq in Hc. congruence.
  - rewrite perform_viewport. destruct c; try exact Hw.
    + cbn in Hc. apply Nat.eqb_neq in Hc. congruence.
    + discriminate.
  - exact Hcs.
Qed.

Lemma other_viewports_untouched_witness :
  heap (snd (perform_all
               [OnContentScrolled; ScrollToIndex 2 behavior_auto; Detach; Attach 0%nat]
               alternating_attached)) 1%nat
  = heap alternating_attached 1%nat.
Proof.
  apply (other_viewports_untouched alternating_attached
           [OnContentScrolled; ScrollToIndex 2 behavior_auto; Detach; Attach 0%nat] 1%nat).
  - vm_compute. discriminate.
  - reflexivity.
Defined.

(** X13: over every sequence of calls, the values the subject has passed on
    are kept and only extended, and every value that is added is at
    least 0. *)
Theorem published_values_only_grow {Item : Type} (w : World Item) (cs : list (Call Item)) :
  exists vs,
    values (_scrolledIndexChange (this (snd (perform_all cs w))))
    = values (_scrolledIndexChange (this w)) ++ vs
    /\ Forall (fun v => 0 <= v) vs.
Proof.
  destruct (perform_all_grows cs w) as (_ & (vs & Hv & Hpos & _) & _).
  exists vs. split; assumption.
Qed.

(** ** The content offset and the total content size *)

Section Configuration2.

Context {Item : Type}.

(** Neither recomputation changes the configuration of the strategy. *)
Lemma recompute_both_config (w : World Item) :
  let w' := snd (_updateRenderedRange (snd (_updateTotalContentSize w))) in
  _items (this w') = _items (this w)
  /\ _itemSizeFn (this w') = _itemSizeFn (this w)
  /\ _minBufferPx (this w') = _minBufferPx (this w)
  /\ _maxBufferPx (this w') = _maxBufferPx (this w).
Proof.
  cbv zeta. destruct (_viewport (this w)) as [vp|] eqn:E.
  - destruct (recompute_both_attached w vp E) as (Ht & _). rewrite Ht.
    repeat split.
  - rewrite (_updateTotalContentSize_detached w E). cbn [snd].
    rewrite (_updateRenderedRange_detached w E). repeat split.
Qed.

Lemma updateRenderedRange_config (w : World Item) :
  let w' := snd (_updateRenderedRange w) in
  _items (this w') = _items (this w)
  /\ _itemSizeFn (this w') = _itemSizeFn (this w)
  /\ _minBufferPx (this w') = _minBufferPx (this w)
  /\ _maxBufferPx (this w') = _maxBufferPx (this w).
Proof.
  cbv zeta. destruct (_viewport (this w)) as [vp|] eqn:E.
  - destruct (_updateRenderedRange_attached w vp E) as (_ & Ht & _). rewrite Ht.
    repeat split.
  - rewrite (_updateRenderedRange_detached w E). repeat split.
Qed.

(** After both recomputations the content offset lies within the total
    content size. *)
Lemma recompute_both_offset (w : World Item) (vp : ViewportRef) :
  _viewport (this w) = Some vp ->
  Forall (fun x => 0 <= _itemSizeFn (this w) x) (_items (this w)) ->
  let v' := heap (snd (_updateRenderedRange (snd (_updateTotalContentSize w)))) vp in
  vp_totalContentSize v' = _getItemSize (this w) (_items (this w))
  /\ 0 <= vp_renderedContentOffset v' <= vp_totalContentSize v'.
Proof.
  intros E Hsizes. cbv zeta.
  destruct (recompute_both_attached w vp E) as (_ & Hv & _). rewrite Hv.
  cbn [vp_totalContentSize vp_renderedContentOffset]. split; [reflexivity|].
  unfold pass_contentOffset.
  destruct (_getItemSize_slice0_any (this w)
              (start (pass_newRange (this w) (heap w vp)))) as [k ->].
  rewrite _getItemSize_totalSize.
  apply totalSize_firstn_le. exact Hsizes.
Qed.

End Configuration2.

(** X14: when [attach], [onDataLengthChanged] or an accepted
    [updateItemAndBufferSize] returns with a viewport attached and the sizes
    of the items are not negative, the total content size of the viewport
    is the sum of the sizes of all items, and the content offset committed
    with the range lies between 0 and that total, whatever range was
    committed. *)
Theorem content_offset_within_total_size {Item : Type}
    (c : Call Item) (w : World Item) (vp : ViewportRef) :
  recomputes_total_size c = true ->
  fst (perform c w) = Return tt ->
  let w' := snd (perform c w) in
  _viewport (this w') = Some vp ->
  Forall (fun x => 0 <= _itemSizeFn (this w') x) (_items (this w')) ->
  vp_totalContentSize (heap w' vp) = _getItemSize (this w') (_items (this w'))
  /\ 0 <= vp_renderedContentOffset (heap w' vp) <= vp_totalContentSize (heap w' vp).
Proof.
  intros Hc Hret w' Hvp Hsizes. subst w'.
  pose proof (perform_viewport c w) as Hview.
  rewrite _getItemSize_totalSize.
  destruct c as [vp0| |f its mn mx| | | | |]; try discriminate Hc; cbn [perform] in *.
  - rewrite attach_recomputes in *. cbn [snd] in *.
    set (w0 := mkWorld _ (heap w)) in *.
    destruct (recompute_both_config w0) as (Hi & Hf & _).
    rewrite Hi, Hf in *. rewrite Hvp in Hview. injection Hview as ->.
    destruct (recompute_both_offset w0 vp0 eq_refl Hsizes) as [Ht Ho].
    rewrite _getItemSize_totalSize in Ht. split; [exact Ht | exact Ho].
  - destruct (Z.ltb_spec mx mn) as [Hlt|Hge].
    + unfold updateItemAndBufferSize in Hret.
      assert ((mx <? mn) = true) as Hb by (apply Z.ltb_lt; exact Hlt).
      rewrite Hb in Hret. discriminate Hret.
    + rewrite (updateItemAndBufferSize_accepts w f its mn mx Hge) in *. cbn [snd] in *.
      set (w0 := configured w f its mn mx) in *.
      destruct (recompute_both_config w0) as (Hi & Hf & _).
      rewrite Hi, Hf in *. rewrite Hvp in Hview.
      destruct (recompute_both_offset w0 vp (eq_sym Hview) Hsizes) as [Ht Ho].
      rewrite _getItemSize_totalSize in Ht. split; [exact Ht | exact Ho].
  - unfold onDataLengthChanged in *. rewrite recompute_both in *. cbn [snd] in *.
    destruct (recompute_both_config w) as (Hi & Hf & _).
    rewrite Hi, Hf in *. rewrite Hvp in Hview.
    destruct (recompute_both_offset w vp (eq_sym Hview) Hsizes) as [Ht Ho].
    rewrite _getItemSize_totalSize in Ht. split; [exact Ht | exact Ho].
Qed.

Lemma content_offset_within_total_size_witness :
  0 <= vp_renderedContentOffset
         (heap (snd (perform OnDataLengthChanged (host_scrolls 0%nat 400 fifty_attached))) 0%nat)
    <= vp_totalContentSize
         (heap (snd (perform OnDataLengthChanged (host_scrolls 0%nat 400 fifty_attached))) 0%nat).
Proof.
  apply (content_offset_within_total_size OnDataLengthChanged
           (host_scrolls 0%nat 400 fifty_attached) 0%nat).
  - reflexivity.
  - reflexivity.
  - reflexivity.
  - apply forallb_nonneg. reflexivity.
Defined.

(** ** What the observers of [scrolledIndexChange] receive *)

Lemma distinctUntilChanged_from_head (prev : option Z) (l : list Z) :
  match distinctUntilChanged_from prev l with
  | [] => True
  | y :: _ => prev <> Some y
  end.
Proof.
  revert prev. induction l as [|x l IH]; intro prev; cbn; [trivial|].
  destruct prev as [p|].
  - destruct (x =? p) eqn:E; [apply IH|].
    apply Z.eqb_neq in E. congruence.
  - discriminate.
Qed.

Lemma distinctUntilChanged_from_no_repetition (prev : option Z) (l : list Z) :
  no_repetition (distinctUntilChanged_from prev l).
Proof.
  revert prev. induction l as [|x l IH]; intro prev; cbn [distinctUntilChanged_from].
  - exact I.
  - assert (H : no_repetition (x :: distinctUntilChanged_from (Some x) l)).
    { cbn [no_repetition]. pose proof (distinctUntilChanged_from_head (Some x) l) as Hh.
      pose proof (IH (Some x)) as Hn.
      destruct (distinctUntilChanged_from (Some x) l) as [|y rest]; [exact I|].
      split; [congruence | exact Hn]. }
    destruct prev as [p|]; [|exact H].
    destruct (x =? p); [apply IH | exact H].
Qed.

Lemma distinctUntilChanged_from_subsequence (prev : option Z) (l : list Z) :
  subsequence (distinctUntilChanged_from prev l) l.
Proof.
  revert prev. induction l as [|x l IH]; intro prev; cbn [distinctUntilChanged_from].
  - constructor.
  - destruct prev as [p|].
    + destruct (x =? p); [apply subsequence_skip | apply subsequence_keep]; apply IH.
    + apply subsequence_keep, IH.
Qed.

(** X15: in every state of the strategy, what the observers of
    [scrolledIndexChange] have received contains no value twice in a row,
    consists of values the subject has passed on, in their order, and
    starts with the first of them. *)
Theorem scrolledIndexChange_has_no_repetition {Item : Type}
    (s : AdaptiveHeightStrategy Item) :
  no_repetition (scrolledIndexChange s)
  /\ subsequence (scrolledIndexChange s) (values (_scrolledIndexChange s))
  /\ hd_error (scrolledIndexChange s) = hd_error (values (_scrolledIndexChange s)).
Proof.
  unfold scrolledIndexChange, distinctUntilChanged. split; [|split].
  - apply distinctUntilChanged_from_no_repetition.
  - apply distinctUntilChanged_from_subsequence.
  - destruct (values (_scrolledIndexChange s)); reflexivity.
Qed.

(** * The directive *)

Section DirectiveFacts.

Context {Item : Type}.

Lemma perform_keeps_thresholds_ordered (c : Call Item) (w : World Item) :
  _minBufferPx (this w) <= _maxBufferPx (this w) ->
  _minBufferPx (this (snd (perform c w))) <= _maxBufferPx (this (snd (perform c w))).
Proof.
  intro H. destruct c as [vp| |f its mn mx| | | | |idx b]; cbn [perform].
  - rewrite attach_recomputes. cbn [snd].
    match goal with |- context [_updateTotalContentSize ?w0] =>
      destruct (recompute_both_config w0) as (_ & _ & Hmin & Hmax) end.
    rewrite Hmin, Hmax. exact H.
  - exact H.
  - destruct (Z.ltb_spec mx mn) as [Hlt|Hge].
    + unfold updateItemAndBufferSize.
      assert ((mx <? mn) = true) as -> by (apply Z.ltb_lt; exact Hlt). exact H.
    + rewrite (updateItemAndBufferSize_accepts w f its mn mx Hge). cbn [snd].
      destruct (recompute_both_config (configured w f its mn mx)) as (_ & _ & Hmin & Hmax).
      rewrite Hmin, Hmax. exact Hge.
  - unfold onContentScrolled.
    destruct (updateRenderedRange_config w) as (_ & _ & Hmin & Hmax).
    rewrite Hmin, Hmax. exact H.
  - unfold onDataLengthChanged. rewrite recompute_both. cbn [snd].
    destruct (recompute_both_config w) as (_ & _ & Hmin & Hmax).
    rewrite Hmin, Hmax. exact H.
  - exact H.
  - exact H.
  - unfold scrollToIndex, bind, get_this.
    destruct (_viewport (this w)); exact H.
Qed.

Lemma ngOnChanges_rejects (d : Directive.CdkReactiveSizeVirtualScroll Item) :
  Directive.maxBufferPx d < Directive.minBufferPx d ->
  Directive.ngOnChanges d = (Throw ConfigError, d).
Proof.
  intro H. unfold Directive.ngOnChanges, updateItemAndBufferSize.
  assert ((Directive.maxBufferPx d <? Directive.minBufferPx d) = true) as ->
    by (apply Z.ltb_lt; exact H).
  destruct d. reflexivity.
Qed.

Lemma ngOnChanges_accepts (d : Directive.CdkReactiveSizeVirtualScroll Item) :
  Directive.minBufferPx d <= Directive.maxBufferPx d ->
  Directive.ngOnChanges d
  = (Return tt,
     Directive.mkDirective (Directive.itemSizeFn d) (Directive.items d)
       (Directive._minBufferPx d) (Directive._maxBufferPx d)
       (snd (_updateRenderedRange
               (snd (_updateTotalContentSize
                       (configured (Directive.strategy_world d) (Directive.itemSizeFn d)
                          (Directive.items d) (Directive.minBufferPx d)
                          (Directive.maxBufferPx d))))))
       (S (Directive.detectChanges d))).
Proof.
  intro H. unfold Directive.ngOnChanges.
  rewrite (updateItemAndBufferSize_accepts _ _ _ _ _ H). reflexivity.
Qed.

Lemma handle_keeps_thresholds_ordered (e : Directive.Event Item)
    (d : Directive.CdkReactiveSizeVirtualScroll Item) :
  _minBufferPx (this (Directive.strategy_world d))
  <= _maxBufferPx (this (Directive.strategy_world d)) ->
  _minBufferPx (this (Directive.strategy_world (snd (Directive.handle e d))))
  <= _maxBufferPx (this (Directive.strategy_world (snd (Directive.handle e d)))).
Proof.
  intro H. destruct e as [f|xs|v|v| |c]; cbn [Directive.handle snd]; try exact H.
  - destruct (Z.lt_ge_cases (Directive.maxBufferPx d) (Directive.minBufferPx d)) as [Hlt|Hge].
    + rewrite (ngOnChanges_rejects d Hlt). exact H.
    + rewrite (ngOnChanges_accepts d Hge). cbn [snd Directive.strategy_world].
      match goal with |- context [_updateTotalContentSize ?w0] =>
        destruct (recompute_both_config w0) as (_ & _ & Hmin & Hmax) end.
      rewrite Hmin, Hmax. exact Hge.
  - pose proof (perform_keeps_thresholds_ordered c (Directive.strategy_world d) H) as Hp.
    destruct (perform c (Directive.strategy_world d)) as [r w']. exact Hp.
Qed.

Lemma handle_all_keeps_thresholds_ordered (es : list (Directive.Event Item))
    (d : Directive.CdkReactiveSizeVirtualScroll Item) :
  _minBufferPx (this (Directive.strategy_world d))
  <= _maxBufferPx (this (Directive.strategy_world d)) ->
  _minBufferPx (this (Directive.strategy_world (Directive.handle_all es d)))
  <= _maxBufferPx (this (Directive.strategy_world (Directive.handle_all es d))).
Proof.
  revert d. induction es as [|e es IH]; intros d H; [exact H|].
  cbn [Directive.handle_all]. apply IH. now apply handle_keeps_thresholds_ordered.
Qed.

End DirectiveFacts.

(** X16: the directive can always be created, and the strategy it creates
    and hands to the viewport through the factory never holds a
    [maxBufferPx] below its [minBufferPx]: not after the creation, and not
    after any sequence of assignments to the inputs, calls of [ngOnChanges]
    and calls of the viewport on the strategy, whatever values the inputs
    are given. *)
Theorem directive_strategy_thresholds_ordered {Item : Type}
    (h : Store) (es : list (Directive.Event Item)) :
  exists d0,
    Directive.new_CdkReactiveSizeVirtualScroll Item h = Return d0
    /\ _minBufferPx (Directive._fixedSizeVirtualScrollStrategyFactory
                       (Directive.handle_all es d0))
       <= _maxBufferPx (Directive._fixedSizeVirtualScrollStrategyFactory
                          (Directive.handle_all es d0)).
Proof.
  eexists. split; [reflexivity|].
  unfold Directive._fixedSizeVirtualScrollStrategyFactory.
  apply handle_all_keeps_thresholds_ordered. cbn. lia.
Qed.

(** X17: [ngOnChanges] with a [maxBufferPx] input below the [minBufferPx]
    input throws the configuration error, does not call [detectChanges] and
    leaves the directive and its strategy as they were, so the strategy
    keeps its earlier configuration. Otherwise it returns, calls
    [detectChanges] once, keeps the inputs, and the strategy holds the four
    inputs of the directive; a viewport the strategy is attached to then
    holds the sum of the input sizes over the input items as total content
    size. *)
Theorem ngOnChanges_configures_or_rejects {Item : Type}
    (d : Directive.CdkReactiveSizeVirtualScroll Item) :
  (Directive.maxBufferPx d < Directive.minBufferPx d ->
     Directive.ngOnChanges d = (Throw ConfigError, d))
  /\ (Directive.minBufferPx d <= Directive.maxBufferPx d ->
      let d' := snd (Directive.ngOnChanges d) in
      let s' := Directive._fixedSizeVirtualScrollStrategyFactory d' in
      fst (Directive.ngOnChanges d) = Return tt
      /\ Directive.detectChanges d' = S (Directive.detectChanges d)
      /\ _itemSizeFn s' = Directive.itemSizeFn d
      /\ _items s' = Directive.items d
      /\ _minBufferPx s' = Directive.minBufferPx d
      /\ _maxBufferPx s' = Directive.maxBufferPx d
      /\ Directive.itemSizeFn d' = Directive.itemSizeFn d
      /\ Directive.items d' = Directive.items d
      /\ Directive.minBufferPx d' = Directive.minBufferPx d
      /\ Directive.maxBufferPx d' = Directive.maxBufferPx d
      /\ (forall vp,
            _viewport (this (Directive.strategy_world d)) = Some vp ->
            vp_totalContentSize (heap (Directive.strategy_world d') vp)
            = Spec.totalSize (Directive.itemSizeFn d) (Directive.items d))).
Proof.
  split.
  - apply ngOnChanges_rejects.
  - intro H. cbv zeta. rewrite (ngOnChanges_accepts d H).
    unfold Directive._fixedSizeVirtualScrollStrategyFactory.
    cbn [fst snd Directive.strategy_world Directive.detectChanges Directive.itemSizeFn
         Directive.items Directive.minBufferPx Directive.maxBufferPx
         Directive._minBufferPx Directive._maxBufferPx].
    set (w0 := configured (Directive.strategy_world d) (Directive.itemSizeFn d)
                 (Directive.items d) (Directive.minBufferPx d) (Directive.maxBufferPx d)).
    destruct (recompute_both_config w0) as (Hi & Hf & Hmin & Hmax).
    rewrite Hi, Hf, Hmin, Hmax.
    repeat (split; [reflexivity|]).
    intros vp Hvp.
    destruct (recompute_both_attached w0 vp Hvp) as (_ & Hv & _).
    rewrite Hv. cbn [vp_totalContentSize]. rewrite _getItemSize_totalSize. reflexivity.
Qed.

Lemma ngOnChanges_configures_or_rejects_witness :
  _items (Directive._fixedSizeVirtualScrollStrategyFactory
            (snd (Directive.ngOnChanges
                    (Directive.mkDirective height alternating 100 200
                       alternating_attached 0%nat))))
  = alternating
  /\ Directive.ngOnChanges
       (Directive.mkDirective height alternating 300 200 alternating_attached 0%nat)
     = (Throw ConfigError,
        Directive.mkDirective height alternating 300 200 alternating_attached 0%nat).
Proof.
  split.
  - apply (proj2 (ngOnChanges_configures_or_rejects
                    (Directive.mkDirective height alternating 100 200
                       alternating_attached 0%nat))).
    vm_compute. discriminate.
  - apply (proj1 (ngOnChanges_configures_or_rejects
                    (Directive.mkDirective height alternating 300 200
                       alternating_attached 0%nat))).
    reflexivity.
Defined.
